(** * HyperparamPipeline: a shallow embedding of
      [ticket_upgrade_prediction/hyperparam_pipeline.py]

    The Python class threads three kinds of effects through its methods:
    exceptions, the two accumulator lists [self.params] / [self.scores], and
    pandas objects that live on the heap and are shared by reference.  They
    are modelled by one exception-and-state monad [M] over a [State] holding
    an object store of data frames, the two lists and the position in the
    stream of the process-wide random generator.

    Library code the class calls (pandas positional indexing, scikit-learn's
    [StandardScaler], [ParameterGrid], numpy's [argmax]/[max], [random.choice])
    is modelled by what the class observes of it; numerics, fold partitioning,
    estimator training and metric computation are collaborators passed as
    parameters. *)

From Stdlib Require Import ZArith QArith List String Bool Lia Permutation.
From stdpp Require Import base list strings.

Local Open Scope string_scope.
Local Open Scope list_scope.
Local Open Scope nat_scope.

(** ** Python values and exceptions *)

(** Hyperparameter values.  [VList] is exactly Python's [list]; [VTuple]
    stands for the other sequence types. *)
#[warnings="-register-all"]
Inductive pyval : Type :=
| VNone
| VBool (b : bool)
| VInt (z : Z)
| VFloat (q : Q)
| VStr (s : string)
| VList (l : list pyval)
| VTuple (l : list pyval).

(** A Python [dict] with string keys, in insertion order. *)
Definition dict := list (string * pyval).

Definition keys (d : dict) : list string := map fst d.

Inductive exn : Type :=
| ValueError (msg : string)
| TypeError (msg : string)
| KeyError (key : string)
| IndexError (msg : string)
| NameError (name : string)
| AttributeError (msg : string)
| DanglingRef.

Inductive outcome (A : Type) : Type :=
| Ok (a : A)
| Raise (e : exn).
Arguments Ok {A} a.
Arguments Raise {A} e.

Definition obind {A B} (o : outcome A) (k : A -> outcome B) : outcome B :=
  match o with
  | Ok a => k a
  | Raise e => Raise e
  end.

Fixpoint omapM {A B} (f : A -> outcome B) (l : list A) : outcome (list B) :=
  match l with
  | [] => Ok []
  | x :: l' => obind (f x) (fun b => obind (omapM f l') (fun bs => Ok (b :: bs)))
  end.

(** ** Metric bundles *)

(** numpy float64 metric values: a finite value or NaN. *)
Inductive mvalue : Type :=
| MNum (q : Q)
| MNaN.

(** Modelled from the spec: the Metric Bundle of the evaluator module
    ([Metrics], absent from the sources), "keyed by metric name to numeric
    value", with "extraction of one metric's value by name" where "unknown
    names fail loudly". *)
Definition Metrics := list (string * mvalue).

Fixpoint get_metric_from_string (m : Metrics) (name : string) : outcome mvalue :=
  match m with
  | [] => Raise (AttributeError name)
  | (k, v) :: m' => if String.eqb k name then Ok v else get_metric_from_string m' name
  end.

(** ** numpy reductions used by [get_best_params] *)

(** [a] does not replace the running maximum [mx]: numpy's test [a <= mx]. *)
Definition np_le (a mx : mvalue) : bool :=
  match a, mx with
  | MNum x, MNum m => Qle_bool x m
  | _, _ => false
  end.

Definition is_nan (a : mvalue) : bool :=
  match a with MNaN => true | MNum _ => false end.

(** The scan of numpy's float argmax: start from element 0, move to a later
    element when it is not [<=] the running maximum, stop at the first NaN. *)
Fixpoint argmax_scan (mx : mvalue) (best i : nat) (l : list mvalue) : nat :=
  match l with
  | [] => best
  | a :: l' =>
      if is_nan mx then best
      else if np_le a mx then argmax_scan mx best (S i) l'
      else argmax_scan a i (S i) l'
  end.

Definition np_argmax (l : list mvalue) : outcome nat :=
  match l with
  | [] => Raise (ValueError "attempt to get argmax of an empty sequence")
  | a :: l' => Ok (argmax_scan a 0 1 l')
  end.

(** [np.maximum]: NaN propagates, otherwise the larger; the accumulator wins
    ties. *)
Definition np_maximum (acc a : mvalue) : mvalue :=
  match acc, a with
  | MNaN, _ => MNaN
  | _, MNaN => MNaN
  | MNum x, MNum z => if Qle_bool z x then acc else a
  end.

Definition np_max (l : list mvalue) : outcome mvalue :=
  match l with
  | [] => Raise (ValueError "zero-size array to reduction operation maximum which has no identity")
  | a :: l' => Ok (fold_left np_maximum l' a)
  end.

(** ** Data frames and float64 cells *)

(** What the fold scaler needs of float64 arithmetic and of the column
    statistics [StandardScaler] computes. *)
Class Float64 (F : Type) := {
  fsub : F -> F -> F;
  fdiv : F -> F -> F;
  fis_inf : F -> bool;
  col_mean : list F -> F;
  col_var : list F -> F;
  scale_of_var : F -> F
}.

Record frame (F : Type) := Frame {
  columns : list string;
  rows : list (list F)
}.
Arguments Frame {F} columns rows.
Arguments columns {F} f.
Arguments rows {F} f.

Abbreviation loc := nat.

(** ** Estimators *)

Inductive Family : Type :=
| XGBClassifier | XGBRegressor
| LogisticRegression
| KNeighborsClassifier | KNeighborsRegressor
| CatBoostClassifier | CatBoostRegressor
| LGBMClassifier | LGBMRegressor.

(** An untrained estimator: its class and the keyword arguments it was
    constructed with. *)
Record Estimator := {
  family : Family;
  options : dict
}.

(** The instance attributes set once by [__init__]. *)
Record Pipeline := {
  self_X : loc;
  self_y : loc;
  self_model : string;
  self_classification : bool;
  self_cols_to_scale : list string;
  self_metric : string;
  self_param_space : dict;
  self_stratify : bool
}.

(** Module-level names: [X] is bound when the file runs as a script and
    unbound when it is imported. *)
Record Globals := {
  global_X : option loc
}.

(** ** State and the exception-state monad *)

Record State (F : Type) := {
  heap : list (frame F);
  self_params : list dict;
  self_scores : list Metrics;
  rng_pos : nat
}.
Arguments heap {F} s.
Arguments self_params {F} s.
Arguments self_scores {F} s.
Arguments rng_pos {F} s.

Definition M (F A : Type) : Type := State F -> outcome A * State F.

Definition ret {F A} (a : A) : M F A := fun s => (Ok a, s).

Definition raise {F A} (e : exn) : M F A := fun s => (Raise e, s).

Definition bind {F A B} (m : M F A) (k : A -> M F B) : M F B :=
  fun s =>
    match m s with
    | (Ok a, s') => k a s'
    | (Raise e, s') => (Raise e, s')
    end.

Definition lift {F A} (o : outcome A) : M F A := fun s => (o, s).

Declare Scope py_scope.
Delimit Scope py_scope with py.
Notation "x <- m ;; k" := (bind m (fun x => k))
  (at level 100, m at next level, right associativity) : py_scope.
Notation "m ;;; k" := (bind m (fun _ => k))
  (at level 100, right associativity) : py_scope.
Local Open Scope py_scope.

(** A [for] loop and a list comprehension whose body may raise. *)
Fixpoint for_each {F A} (l : list A) (body : A -> M F unit) : M F unit :=
  match l with
  | [] => ret tt
  | x :: l' => body x ;;; for_each l' body
  end.

Fixpoint map_m {F A B} (f : A -> M F B) (l : list A) : M F (list B) :=
  match l with
  | [] => ret []
  | x :: l' => b <- f x ;; bs <- map_m f l' ;; ret (b :: bs)
  end.

Fixpoint repeat_m {F} (n : nat) (body : M F unit) : M F unit :=
  match n with
  | O => ret tt
  | S n' => body ;;; repeat_m n' body
  end.

(** ** External collaborators *)

(** Fold partitioning, estimator construction and training, metric
    computation and the random generator are owned by libraries or by the
    evaluator module; the pipeline only calls them.  They are given the
    contents of the tables they are passed and write to none of them; of the
    shared tables only [kf.split] is handed [self.X] and [self.y], the
    estimator and the evaluator see the slices of the fold. *)
Record World (F : Type) := {
  (** the fitted model held by a trained estimator *)
  Fitted : Type;
  (** [StratifiedKFold(n_splits)] / [KFold(n_splits)] and [kf.split(X, y)] *)
  kf_split : bool -> Z -> frame F -> frame F -> outcome (list (list Z * list Z));
  (** the estimator constructor's own check of its keyword arguments *)
  init_check : Family -> dict -> option exn;
  (** [model.fit(X_train, y_train.values.ravel())] *)
  model_fit : Estimator -> frame F -> list F -> outcome Fitted;
  (** [Evaluator(model=model, X=X_test, y=y_test).get_all_metrics()] *)
  get_all_metrics : Fitted -> frame F -> frame F -> outcome Metrics;
  (** [Metrics.from_multiple_metrics(...)] *)
  from_multiple_metrics : list Metrics -> outcome Metrics;
  (** the raw draws of the process-wide [random] generator *)
  random_draw : nat -> nat
}.
Arguments Fitted {F} w.
Arguments kf_split {F} w.
Arguments init_check {F} w.
Arguments model_fit {F} w.
Arguments get_all_metrics {F} w.
Arguments from_multiple_metrics {F} w.
Arguments random_draw {F} w.

Section Pandas.
Context {F : Type}.

(** *** Object store *)

Definition read (l : loc) : M F (frame F) :=
  fun s =>
    match heap s !! l with
    | Some f => (Ok f, s)
    | None => (Raise DanglingRef, s)
    end.

(** A new object gets the next free location. *)
Definition alloc (f : frame F) : M F loc :=
  fun s =>
    (Ok (length (heap s)),
     {| heap := heap s ++ [f]; self_params := self_params s;
        self_scores := self_scores s; rng_pos := rng_pos s |}).

(** In-place update of the object at [l]. *)
Definition write (l : loc) (f : frame F) : M F unit :=
  fun s =>
    (Ok tt,
     {| heap := <[l := f]> (heap s); self_params := self_params s;
        self_scores := self_scores s; rng_pos := rng_pos s |}).

(** *** [df.iloc[index_array]] *)

(** A position in an axis of length [n]; negative positions count from the
    end. *)
Definition positional (n : nat) (i : Z) : option nat :=
  if ((0 <=? i) && (i <? Z.of_nat n))%Z then Some (Z.to_nat i)
  else if ((- Z.of_nat n <=? i) && (i <? 0))%Z then Some (Z.to_nat (i + Z.of_nat n))
  else None.

Definition row_at (rs : list (list F)) (i : Z) : option (list F) :=
  match positional (length rs) i with
  | Some n => rs !! n
  | None => None
  end.

Fixpoint take_rows (rs : list (list F)) (idx : list Z) : option (list (list F)) :=
  match idx with
  | [] => Some []
  | i :: idx' =>
      match row_at rs i, take_rows rs idx' with
      | Some r, Some out => Some (r :: out)
      | _, _ => None
      end
  end.

(** Indexing rows by an integer array takes the rows into a new object. *)
Definition iloc_rows (l : loc) (idx : list Z) : M F loc :=
  f <- read l ;;
  match take_rows (rows f) idx with
  | Some rs => alloc (Frame (columns f) rs)
  | None => raise (IndexError "positional indexers are out-of-bounds")
  end.

(** *** [df.iloc[:, boolean_list]] *)

Fixpoint select {A} (mask : list bool) (xs : list A) : list A :=
  match mask, xs with
  | b :: mask', x :: xs' => if b then x :: select mask' xs' else select mask' xs'
  | _, _ => []
  end.

(** The table of the selected columns. *)
Definition columns_where (mask : list bool) (f : frame F) : frame F :=
  Frame (select mask (columns f)) (map (select mask) (rows f)).

Definition iloc_cols (l : loc) (mask : list bool) : M F (frame F) :=
  f <- read l ;;
  if length mask =? length (columns f)
  then ret (columns_where mask f)
  else raise (IndexError "Boolean index has wrong length").

(** *** [df.iloc[:, boolean_list] = array] *)

Fixpoint assign {A} (mask : list bool) (xs new : list A) : list A :=
  match mask, xs with
  | true :: mask', x :: xs' =>
      match new with
      | v :: new' => v :: assign mask' xs' new'
      | [] => x :: assign mask' xs' []
      end
  | false :: mask', x :: xs' => x :: assign mask' xs' new
  | _, _ => xs
  end.

Definition count_true (mask : list bool) : nat :=
  fold_right (fun (b : bool) n => if b then S n else n) 0 mask.

(** The table with the selected columns replaced, row by row, by [vals]. *)
Definition with_columns (mask : list bool) (f : frame F) (vals : list (list F)) : frame F :=
  Frame (columns f) (zip_with (assign mask) (rows f) vals).

(** [vals] has one row per row of [f] and one cell per selected column. *)
Definition fits (mask : list bool) (f : frame F) (vals : list (list F)) : bool :=
  (length vals =? length (rows f)) && forallb (fun r => length r =? count_true mask) vals.

Definition iloc_cols_set (l : loc) (mask : list bool) (vals : list (list F)) : M F unit :=
  f <- read l ;;
  if negb (length mask =? length (columns f))
  then raise (IndexError "Boolean index has wrong length")
  else if negb (fits mask f vals)
  then raise (ValueError "shape mismatch")
  else write l (with_columns mask f vals).

End Pandas.

(** ** [sklearn.preprocessing.StandardScaler] *)

Record StandardScaler (F : Type) := {
  mean_ : list F;
  var_ : list F;
  scale_ : list F
}.
Arguments mean_ {F} s.
Arguments var_ {F} s.
Arguments scale_ {F} s.

Section Scaler.
Context {F : Type} `{Float64 F}.

(** Input validation of [fit] and [transform]: no infinity, at least one
    sample, at least one feature. *)
Definition check_array (A : frame F) : outcome unit :=
  if existsb (existsb fis_inf) (rows A)
  then Raise (ValueError "Input contains infinity or a value too large for dtype('float64').")
  else if length (rows A) =? 0
  then Raise (ValueError "Found array with 0 sample(s) while a minimum of 1 is required by StandardScaler.")
  else if length (columns A) =? 0
  then Raise (ValueError "Found array with 0 feature(s) while a minimum of 1 is required by StandardScaler.")
  else Ok tt.

Definition column_values (j : nat) (rs : list (list F)) : list F :=
  omap (fun r : list F => r !! j) rs.

Definition scaler_fit (A : frame F) : outcome (StandardScaler F) :=
  obind (check_array A) (fun _ =>
    let cols := map (fun j => column_values j (rows A)) (seq 0 (length (columns A))) in
    Ok {| mean_ := map col_mean cols;
          var_ := map col_var cols;
          scale_ := map (fun c => scale_of_var (col_var c)) cols |}).

Definition standardize_row (sc : StandardScaler F) (r : list F) : list F :=
  zip_with (fun x ms => fdiv (fsub x (fst ms)) (snd ms)) r (zip (mean_ sc) (scale_ sc)).

Definition scaler_transform (sc : StandardScaler F) (A : frame F) : outcome (list (list F)) :=
  obind (check_array A) (fun _ =>
    if length (columns A) =? length (mean_ sc)
    then Ok (map (standardize_row sc) (rows A))
    else Raise (ValueError "X has a different number of features than StandardScaler is expecting.")).

Definition scaler_fit_transform (A : frame F) : outcome (StandardScaler F * list (list F)) :=
  obind (scaler_fit A) (fun sc =>
    obind (scaler_transform sc A) (fun out => Ok (sc, out))).

End Scaler.

(** ** [sklearn.model_selection.ParameterGrid] *)

(** The candidates of one grid entry: the constructor accepts a sequence that
    is not a string and not empty. *)
Definition candidates (v : pyval) : outcome (list pyval) :=
  match v with
  | VList l | VTuple l =>
      match l with
      | [] => Raise (ValueError "Parameter grid for parameter need to be a non-empty sequence")
      | _ :: _ => Ok l
      end
  | _ => Raise (TypeError "Parameter grid for parameter needs to be a list or a numpy array. Single values need to be wrapped in a list with one element.")
  end.

Definition sequence_items (v : pyval) : list pyval :=
  match v with
  | VList l | VTuple l => l
  | _ => []
  end.

(** [sorted(p.items())]: keys of a dict are distinct, so the key decides. *)
Fixpoint insert_item (kv : string * pyval) (l : dict) : dict :=
  match l with
  | [] => [kv]
  | kv' :: l' =>
      if String.leb (fst kv) (fst kv') then kv :: l else kv' :: insert_item kv l'
  end.

Definition sorted (d : dict) : dict := fold_right insert_item [] d.

(** [itertools.product]: the last argument varies fastest. *)
Fixpoint product {A} (ls : list (list A)) : list (list A) :=
  match ls with
  | [] => [[]]
  | l :: ls' => flat_map (fun x => map (cons x) (product ls')) l
  end.

Definition ParameterGrid_iter (param_grid : dict) : list dict :=
  let items := sorted param_grid in
  match items with
  | [] => [[]]
  | _ :: _ => map (zip (map fst items)) (product (map (fun kv => sequence_items (snd kv)) items))
  end.

(** Construction validates every entry, iteration enumerates the product. *)
Definition ParameterGrid (param_grid : dict) : outcome (list dict) :=
  obind (omapM (fun kv => candidates (snd kv)) param_grid) (fun _ =>
    Ok (ParameterGrid_iter param_grid)).

(** ** The pipeline *)

Section HyperparamPipeline.
Context {F : Type} `{Float64 F}.
Variable W : World F.
Variable G : Globals.

Definition get_state : M F (State F) := fun s => (Ok s, s).

Definition params_append (it : dict) : M F unit :=
  fun s =>
    (Ok tt,
     {| heap := heap s; self_params := self_params s ++ [it];
        self_scores := self_scores s; rng_pos := rng_pos s |}).

Definition scores_append (score : Metrics) : M F unit :=
  fun s =>
    (Ok tt,
     {| heap := heap s; self_params := self_params s;
        self_scores := self_scores s ++ [score]; rng_pos := rng_pos s |}).

(** *** [get_best_params] (lines 61-66) *)
Definition get_best_params (self : Pipeline) : M F (dict * mvalue) :=
  s <- get_state ;;
  metric_list <- lift (omapM (fun metric_obj => get_metric_from_string metric_obj (self_metric self))
                             (self_scores s)) ;;
  i <- lift (np_argmax metric_list) ;;
  match self_params s !! i with
  | None => raise (IndexError "list index out of range")
  | Some best => mx <- lift (np_max metric_list) ;; ret (best, mx)
  end.

(** *** [get_random_params] (lines 85-90) *)

(** [random.choice]: an empty sequence raises, otherwise one draw picks a
    position. *)
Definition random_choice (l : list pyval) : M F pyval :=
  fun s =>
    match l with
    | [] => (Raise (IndexError "Cannot choose from an empty sequence"), s)
    | _ :: _ =>
        (Ok (nth (random_draw W (rng_pos s) mod length l) l VNone),
         {| heap := heap s; self_params := self_params s;
            self_scores := self_scores s; rng_pos := S (rng_pos s) |})
    end.

Fixpoint get_random_params (param_space : dict) : M F dict :=
  match param_space with
  | [] => ret []
  | (k, v) :: rest =>
      v' <- match v with
            | VList l => random_choice l
            | _ => ret v
            end ;;
      rest' <- get_random_params rest ;;
      ret ((k, v') :: rest')
  end.

(** *** [determine_model] (lines 161-187) *)

(** A call [f(k1=v1, ..., **params)]: a key given twice is a [TypeError]. *)
Definition call_kwargs (fixed params : dict) : outcome dict :=
  if existsb (fun k => existsb (String.eqb k) (keys fixed)) (keys params)
  then Raise (TypeError "got multiple values for keyword argument")
  else Ok (fixed ++ params).

Definition construct (fam : Family) (kwargs : dict) : outcome Estimator :=
  match init_check W fam kwargs with
  | Some e => Raise e
  | None => Ok {| family := fam; options := kwargs |}
  end.

Definition determine_model (self : Pipeline) (params : dict) : outcome Estimator :=
  if String.eqb (self_model self) "xgb" then
    if self_classification self
    then obind (call_kwargs [("objective", VStr "binary:logistic"); ("verbosity", VInt 0)] params)
               (construct XGBClassifier)
    else obind (call_kwargs [("objective", VStr "reg:squarederror"); ("verbosity", VInt 0)] params)
               (construct XGBRegressor)
  else if String.eqb (self_model self) "lr" then
    construct LogisticRegression params
  else if String.eqb (self_model self) "knn" then
    if self_classification self
    then construct KNeighborsClassifier params
    else construct KNeighborsRegressor params
  else if String.eqb (self_model self) "cat" then
    if self_classification self
    then construct CatBoostClassifier params
    else construct CatBoostRegressor params
  else if String.eqb (self_model self) "lgb" then
    if self_classification self
    then construct LGBMClassifier params
    else construct LGBMRegressor params
  else Raise (ValueError "this model is currently not supported. try any of: xgb, lr, knn, cat, lgb").

(** *** [map_cols_to_scale_to_boolean] (lines 124-125) *)

(** The body reads the module-level name [X], not [self.X]. *)
Definition map_cols_to_scale_to_boolean (self : Pipeline) : M F (list bool) :=
  match global_X G with
  | None => raise (NameError "X")
  | Some gx =>
      f <- read gx ;;
      ret (map (fun col => existsb (String.eqb col) (self_cols_to_scale self)) (columns f))
  end.

(** *** [get_scaled_train_and_test_sets] (lines 127-145) *)

(** Lines 131-136: the four slices. *)
Definition slice_fold (self : Pipeline) (train_index test_index : list Z)
  : M F (loc * loc * loc * loc) :=
  X_train <- iloc_rows (self_X self) train_index ;;
  X_test <- iloc_rows (self_X self) test_index ;;
  y_train <- iloc_rows (self_y self) train_index ;;
  y_test <- iloc_rows (self_y self) test_index ;;
  ret (X_train, X_test, y_train, y_test).

(** Lines 137-141: the right-hand side is evaluated first, then the mask of
    the assignment target, then the assignment into [X_train]. *)
Definition fit_on_train (self : Pipeline) (X_train : loc) : M F (StandardScaler F) :=
  mask <- map_cols_to_scale_to_boolean self ;;
  sub <- iloc_cols X_train mask ;;
  fitted <- lift (scaler_fit_transform sub) ;;
  mask' <- map_cols_to_scale_to_boolean self ;;
  iloc_cols_set X_train mask' (snd fitted) ;;;
  ret (fst fitted).

(** Lines 142-144. *)
Definition transform_test (self : Pipeline) (scaler : StandardScaler F) (X_test : loc)
  : M F unit :=
  mask <- map_cols_to_scale_to_boolean self ;;
  sub <- iloc_cols X_test mask ;;
  scaled <- lift (scaler_transform scaler sub) ;;
  mask' <- map_cols_to_scale_to_boolean self ;;
  iloc_cols_set X_test mask' scaled.

(** Lines 130-141: everything up to and including the fit, with the fitted
    scaler kept for inspection. *)
Definition fit_stage (self : Pipeline) (train_index test_index : list Z)
  : M F (StandardScaler F * (loc * loc * loc * loc)) :=
  sl <- slice_fold self train_index test_index ;;
  scaler <- fit_on_train self (fst (fst (fst sl))) ;;
  ret (scaler, sl).

Definition get_scaled_train_and_test_sets (self : Pipeline) (train_index test_index : list Z)
  : M F (loc * loc * loc * loc) :=
  st <- fit_stage self train_index test_index ;;
  transform_test self (fst st) (snd (fst (fst (snd st)))) ;;;
  ret (snd st).

(** *** [create_preds_for_hypers] (lines 147-159) *)
Definition create_preds_for_hypers (self : Pipeline) (train_index test_index : list Z)
    (iteration_params : dict) : M F Metrics :=
  model <- lift (determine_model self iteration_params) ;;
  sl <- get_scaled_train_and_test_sets self train_index test_index ;;
  X_train <- read (fst (fst (fst sl))) ;;
  y_train <- read (snd (fst sl)) ;;
  fitted <- lift (model_fit W model X_train (concat (rows y_train))) ;;
  X_test <- read (snd (fst (fst sl))) ;;
  y_test <- read (snd sl) ;;
  lift (get_all_metrics W fitted X_test y_test).

(** *** [create_splits_and_calc_scores] (lines 111-122) *)
Definition create_splits_and_calc_scores (self : Pipeline) (n_splits : Z)
    (iteration_params : dict) : M F Metrics :=
  fX <- read (self_X self) ;;
  fy <- read (self_y self) ;;
  folds <- lift (kf_split W (self_stratify self) n_splits fX fy) ;;
  per_fold <- map_m (fun fold => create_preds_for_hypers self (fst fold) (snd fold)
                                   iteration_params) folds ;;
  lift (from_multiple_metrics W per_fold).

(** *** [append_params_and_calculate_scores] (lines 96-102) *)
Definition append_params_and_calculate_scores (self : Pipeline) (iteration_params : dict)
    (n_splits : Z) : M F unit :=
  params_append iteration_params ;;;
  score <- create_splits_and_calc_scores self n_splits iteration_params ;;
  scores_append score.

(** *** [optimize_hypers_using_grid_search] (lines 92-94) *)
Definition optimize_hypers_using_grid_search (self : Pipeline) (n_splits : Z) : M F unit :=
  grid <- lift (ParameterGrid (self_param_space self)) ;;
  for_each grid (fun iteration_params =>
    append_params_and_calculate_scores self iteration_params n_splits).

(** *** [optimize_hypers_using_random_search] (lines 104-109) *)
Definition optimize_hypers_using_random_search (self : Pipeline) (n_splits n_iters : Z)
  : M F unit :=
  repeat_m (Z.to_nat n_iters)
    (iteration_params <- get_random_params (self_param_space self) ;;
     append_params_and_calculate_scores self iteration_params n_splits).

(** *** [search_for_params] (lines 68-83); [kwargs] carries [n_iters]. *)
Definition search_for_params (self : Pipeline) (searching_algo : string) (n_splits : Z)
    (kwargs : option Z) : M F unit :=
  if String.eqb searching_algo "random" then
    match kwargs with
    | None => raise (KeyError "n_iters")
    | Some n_iters => optimize_hypers_using_random_search self n_splits n_iters
    end
  else if String.eqb searching_algo "grid" then
    optimize_hypers_using_grid_search self n_splits
  else raise (ValueError "Unrecognizable searching_algo param. Currently available are: random, grid.").

End HyperparamPipeline.

(** ** A concrete world for worked examples *)

(** Exact rationals standing in for float64 cells: population mean and
    variance, and a square root that is exact on squares of rationals. *)
Module Demo.

Definition Qsum (l : list Q) : Q := fold_right Qplus 0%Q l.

Definition Qmean (l : list Q) : Q :=
  Qred (Qsum l / inject_Z (Z.of_nat (length l))).

Definition Qvar (l : list Q) : Q :=
  let m := Qmean l in
  Qred (Qsum (map (fun x => (x - m) * (x - m))%Q l) / inject_Z (Z.of_nat (length l))).

Definition Qscale (v : Q) : Q :=
  if Qeq_bool v 0 then 1%Q else Qmake (Z.sqrt (Qnum v)) (Pos.sqrt (Qden v)).

#[global] Instance Q_Float64 : Float64 Q := {|
  fsub := fun a b => Qred (a - b);
  fdiv := fun a b => Qred (a / b);
  fis_inf := fun _ => false;
  col_mean := Qmean;
  col_var := Qvar;
  scale_of_var := Qscale
|}.

(** Unshuffled [KFold]: consecutive test blocks, the first [n mod k] of
    them one row longer. *)
Fixpoint blocks (start : nat) (sizes : list nat) (n : nat) : list (list Z * list Z) :=
  match sizes with
  | [] => []
  | sz :: sizes' =>
      let all := seq 0 n in
      let is_test i := (start <=? i) && (i <? start + sz) in
      (map Z.of_nat (List.filter (fun i => negb (is_test i)) all),
       map Z.of_nat (List.filter is_test all))
      :: blocks (start + sz) sizes' n
  end.

Definition kfold (stratify : bool) (n_splits : Z) (fX fy : frame Q)
  : outcome (list (list Z * list Z)) :=
  let n := length (rows fX) in
  let k := Z.to_nat n_splits in
  if (n_splits <=? 1)%Z
  then Raise (ValueError "k-fold cross-validation requires at least one train/test split")
  else if n <? k
  then Raise (ValueError "Cannot have number of splits greater than the number of samples")
  else Ok (blocks 0 (map (fun i => n / k + (if i <? n mod k then 1 else 0)) (seq 0 k)) n).

(** Every estimator accepts its options and trains; each fold scores the
    number of training rows it saw, and folds combine by taking the first. *)
Definition world : World Q := {|
  Fitted := nat;
  kf_split := kfold;
  init_check := fun _ _ => None;
  model_fit := fun _ X_train _ => Ok (length (rows X_train));
  get_all_metrics := fun n _ _ => Ok [("accuracy", MNum (1 # Pos.of_nat (S n)))];
  from_multiple_metrics := fun l =>
    match l with
    | [] => Raise (TypeError "from_multiple_metrics needs at least one bundle")
    | m :: _ => Ok m
    end;
  random_draw := fun i => i
|}.

(** The same world with an estimator whose training fails. *)
Definition world_fit_fails : World Q := {|
  Fitted := nat;
  kf_split := kfold;
  init_check := fun _ _ => None;
  model_fit := fun _ _ _ => Raise (ValueError "training failed");
  get_all_metrics := fun n _ _ => Ok [("accuracy", MNum (1 # Pos.of_nat (S n)))];
  from_multiple_metrics := from_multiple_metrics world;
  random_draw := fun i => i
|}.

(** The script's setting: the module-level [X] is the pipeline's table. *)
Definition script : Globals := {| global_X := Some 0 |}.

(** The setting of an importing module: no module-level [X]. *)
Definition imported : Globals := {| global_X := None |}.

Definition table : frame Q :=
  Frame ["col_0"; "col_1"]
        [[1; 3]; [3; 3]; [5; 7]; [7; 7]]%Q.

Definition labels : frame Q :=
  Frame ["y"] [[0]; [1]; [0]; [1]]%Q.

Definition init : State Q :=
  {| heap := [table; labels]; self_params := []; self_scores := []; rng_pos := 0 |}.

(** The same table with other values in the rows at positions 2 and 3. *)
Definition table_perturbed : frame Q :=
  Frame ["col_0"; "col_1"]
        [[1; 3]; [3; 3]; [-40; 1000]; [(22 # 7); 0]]%Q.

Definition init_perturbed : State Q :=
  {| heap := [table_perturbed; labels]; self_params := []; self_scores := []; rng_pos := 0 |}.

Definition pipeline (model_type : string) (classification : bool) (space : dict)
    (cols : list string) : Pipeline :=
  {| self_X := 0; self_y := 1; self_model := model_type;
     self_classification := classification;
     self_cols_to_scale := cols; self_metric := "accuracy"; self_param_space := space;
     self_stratify := false |}.

End Demo.

(** ** Specification vocabulary *)

(** The order numpy's maximum follows: NaN dominates every value. *)
Definition mv_le (x v : mvalue) : Prop :=
  match x, v with
  | _, MNaN => True
  | MNaN, MNum _ => False
  | MNum a, MNum b => (a <= b)%Q
  end.

Definition list_prod (l : list nat) : nat := fold_right Nat.mul 1 l.

(** A grid entry [ParameterGrid] accepts: a non-empty list or tuple. *)
Definition grid_entry (v : pyval) : bool :=
  match v with
  | VList (_ :: _) | VTuple (_ :: _) => true
  | _ => false
  end.

(** The one list [random.choice] cannot choose from. *)
Definition empty_list (v : pyval) : bool :=
  match v with
  | VList [] => true
  | _ => false
  end.

(** [cfg] picks, key by key, one candidate of every entry of [items]. *)
Definition combination (items cfg : dict) : Prop :=
  Forall2 (fun kv cv => fst cv = fst kv /\ In (snd cv) (sequence_items (snd kv))) items cfg.

(** [cfg] resolves [space] as random search does: a list entry becomes one of
    its elements, any other entry is kept. *)
Definition resolves (space cfg : dict) : Prop :=
  Forall2 (fun kv cv =>
             fst cv = fst kv /\
             match snd kv with
             | VList l => In (snd cv) l
             | v => snd cv = v
             end) space cfg.

Section Invariants.
Context {F : Type}.

(** The first [n] objects of the store are [h0], and the two accumulator
    lists and the generator position are as given. *)
Definition Inv (n : nat) (h0 : list (frame F)) (ps : list dict) (sc : list Metrics)
    (rp : nat) (s : State F) : Prop :=
  n <= length (heap s) /\ take n (heap s) = h0 /\
  self_params s = ps /\ self_scores s = sc /\ rng_pos s = rp.

(** [m] maintains [I] whether it returns or raises, and returns only values
    satisfying [post]. *)
Definition keeps {A} (I : State F -> Prop) (m : M F A) (post : A -> Prop) : Prop :=
  forall s, I s -> I (snd (m s)) /\ forall a, fst (m s) = Ok a -> post a.

(** What a caller can see of the fit: the fitted statistics, the scaled
    training table and the training labels. *)
Definition observe_fit
    (r : outcome (StandardScaler F * (loc * loc * loc * loc)) * State F)
  : outcome (StandardScaler F * option (frame F) * option (frame F)) :=
  match fst r with
  | Ok (sc, (X_train, _, y_train, _)) =>
      Ok (sc, heap (snd r) !! X_train, heap (snd r) !! y_train)
  | Raise e => Raise e
  end.

(** The training part of what [get_scaled_train_and_test_sets] returns. *)
Definition observe_train (r : outcome (loc * loc * loc * loc) * State F)
  : option (option (frame F) * option (frame F)) :=
  match fst r with
  | Ok (X_train, _, y_train, _) => Some (heap (snd r) !! X_train, heap (snd r) !! y_train)
  | Raise _ => None
  end.

End Invariants.

Section FitSummary.
Context {F : Type} `{Float64 F}.

(** The state after objects [fs] were allocated. *)
Definition extend (s : State F) (fs : list (frame F)) : State F :=
  {| heap := heap s ++ fs; self_params := self_params s;
     self_scores := self_scores s; rng_pos := rng_pos s |}.

(** The state after the object at [l] was overwritten with [f]. *)
Definition update (s : State F) (l : loc) (f : frame F) : State F :=
  {| heap := <[l := f]> (heap s); self_params := self_params s;
     self_scores := self_scores s; rng_pos := rng_pos s |}.

(** The columns of the module-level [X], when that name is bound. *)
Definition global_columns (G : Globals) (s : State F) : option (list string) :=
  match global_X G with
  | None => None
  | Some gx => option_map columns (heap s !! gx)
  end.

(** The module-level [X], when bound, names an object of the store. *)
Definition global_ok (G : Globals) (s : State F) : bool :=
  match global_X G with
  | None => true
  | Some gx => gx <? length (heap s)
  end.

(** The mask of [map_cols_to_scale_to_boolean] for the column names [gc]. *)
Definition col_mask (to_scale gc : list string) : list bool :=
  map (fun col => existsb (String.eqb col) to_scale) gc.

(** Lines 137-141 as a function of the training table alone: the fitted
    scaler and the table after the assignment. *)
Definition fit_on_frame (to_scale : list string) (gcols : option (list string))
    (A : frame F) : outcome (StandardScaler F * frame F) :=
  match gcols with
  | None => Raise (NameError "X")
  | Some gc =>
      let mask := col_mask to_scale gc in
      if negb (length mask =? length (columns A))
      then Raise (IndexError "Boolean index has wrong length")
      else
        obind (scaler_fit_transform (columns_where mask A))
              (fun fitted =>
                 if negb (fits mask A (snd fitted))
                 then Raise (ValueError "shape mismatch")
                 else Ok (fst fitted, with_columns mask A (snd fitted)))
  end.

(** Lines 142-144 as a function of the fitted scaler and the test table. *)
Definition transform_on_frame (to_scale : list string) (gcols : option (list string))
    (scaler : StandardScaler F) (B : frame F) : outcome (frame F) :=
  match gcols with
  | None => Raise (NameError "X")
  | Some gc =>
      let mask := col_mask to_scale gc in
      if negb (length mask =? length (columns B))
      then Raise (IndexError "Boolean index has wrong length")
      else
        obind (scaler_transform scaler (columns_where mask B))
              (fun scaled =>
                 if negb (fits mask B scaled)
                 then Raise (ValueError "shape mismatch")
                 else Ok (with_columns mask B scaled))
  end.

(** A returning call on the table [T]: one scaler, fitted on the selected
    columns of the training rows, transforms the training rows and the test
    rows, and the two returned tables hold the results. *)
Definition scaled_by_train_fit (G : Globals) (self : Pipeline)
    (train_index test_index : list Z) (s : State F) (T : frame F) : Prop :=
  forall sl s',
    get_scaled_train_and_test_sets G self train_index test_index s = (Ok sl, s') ->
    exists gc a b scaler va vb,
      let mask := col_mask (self_cols_to_scale self) gc in
      let A := Frame (columns T) a in
      let B := Frame (columns T) b in
      global_columns G s = Some gc /\
      take_rows (rows T) train_index = Some a /\
      take_rows (rows T) test_index = Some b /\
      scaler_fit (columns_where mask A) = Ok scaler /\
      scaler_transform scaler (columns_where mask A) = Ok va /\
      scaler_transform scaler (columns_where mask B) = Ok vb /\
      heap s' !! fst (fst (fst sl)) = Some (with_columns mask A va) /\
      heap s' !! snd (fst (fst sl)) = Some (with_columns mask B vb).

End FitSummary.

(** * LassoModel: [ticket_upgrade_prediction/models/lasso/lasso.py] *)

(** The libraries the wrapper calls: missing-value detection of pandas,
    [train_test_split(..., test_size=0.2, random_state=42)], the
    [LogisticRegression] built from keyword arguments and fitted, the two
    prediction methods of a fitted model and the model registry. *)
Record LassoWorld (F : Type) := {
  Model : Type;
  is_na : F -> bool;
  train_test_split : frame F -> frame F -> outcome (frame F * frame F * frame F * frame F);
  lr_fit : dict -> frame F -> frame F -> outcome Model;
  model_predict : Model -> frame F -> outcome (list F);
  model_predict_proba : Model -> frame F -> outcome (list (list F));
  load_model : string -> Z -> outcome Model
}.
Arguments Model {F} _.
Arguments is_na {F} _.
Arguments train_test_split {F} _.
Arguments lr_fit {F} _.
Arguments model_predict {F} _.
Arguments model_predict_proba {F} _.
Arguments load_model {F} _.

(** The data frames on the heap and the attribute [self.model]; [None] is
    Python's [None]. *)
Record LassoState (F Mdl : Type) := {
  frames : list (frame F);
  lasso_model : option Mdl
}.
Arguments frames {F Mdl} _.
Arguments lasso_model {F Mdl} _.

Section LassoModel.
Context {F : Type}.
Variable L : LassoWorld F.

Definition LState := LassoState F (Model L).

(** [__init__] (lines 14-15). *)
Definition lasso_init (fs : list (frame F)) : LState :=
  {| frames := fs; lasso_model := None |}.

(** [predict] (lines 17-18): attribute access on [None] raises. *)
Definition predict (X : frame F) (s : LState) : outcome (list F) * LState :=
  match lasso_model s with
  | None => (Raise (AttributeError "'NoneType' object has no attribute 'predict'"), s)
  | Some m => (model_predict L m X, s)
  end.

(** [predict_proba] (lines 20-21). *)
Definition predict_proba (X : frame F) (s : LState) : outcome (list (list F)) * LState :=
  match lasso_model s with
  | None => (Raise (AttributeError "'NoneType' object has no attribute 'predict_proba'"), s)
  | Some m => (model_predict_proba L m X, s)
  end.

(** A row without missing values. *)
Definition complete_row (r : list F) : bool := forallb (fun x => negb (is_na L x)) r.

(** [dataset.dropna(inplace=True)]: the object keeps the complete rows. *)
Definition dropna (f : frame F) : frame F :=
  Frame (columns f) (List.filter complete_row (rows f)).

(** [dataset.drop([target], axis=1)]: a new table without the column; a
    label that is not a column raises. *)
Definition drop_column (target : string) (f : frame F) : outcome (frame F) :=
  if existsb (String.eqb target) (columns f)
  then Ok (columns_where (map (fun c => negb (String.eqb c target)) (columns f)) f)
  else Raise (KeyError target).

(** [dataset[[target]]]: a new table of that column. *)
Definition only_column (target : string) (f : frame F) : outcome (frame F) :=
  if existsb (String.eqb target) (columns f)
  then Ok (columns_where (map (fun c => String.eqb c target) (columns f)) f)
  else Raise (KeyError target).

(** The keyword arguments of the [LogisticRegression] of line 31. *)
Definition lasso_kwargs (class_weight_balance : string) (verbose max_iter : Z) : dict :=
  [("penalty", VStr "l1"); ("solver", VStr "saga");
   ("class_weight", VStr class_weight_balance);
   ("verbose", VInt verbose); ("max_iter", VInt max_iter)].

(** [fit_model] (lines 23-48).  The rows with missing values are dropped
    from the caller's object first, the model is assigned last; the method
    returns [None]. *)
Definition fit_model (dataset : loc) (class_weight_balance : string) (verbose max_iter : Z)
    (target : string) (s : LState) : outcome unit * LState :=
  match frames s !! dataset with
  | None => (Raise DanglingRef, s)
  | Some f =>
      let d := dropna f in
      let s1 := {| frames := <[dataset := d]> (frames s); lasso_model := lasso_model s |} in
      match drop_column target d with
      | Raise e => (Raise e, s1)
      | Ok features =>
          match only_column target d with
          | Raise e => (Raise e, s1)
          | Ok labels =>
              match train_test_split L features labels with
              | Raise e => (Raise e, s1)
              | Ok (X_train, _, y_train, _) =>
                  match lr_fit L (lasso_kwargs class_weight_balance verbose max_iter)
                               X_train y_train with
                  | Raise e => (Raise e, s1)
                  | Ok model => (Ok tt, {| frames := frames s1; lasso_model := Some model |})
                  end
              end
          end
      end
  end.

(** [get_fitted_model] (lines 50-56): the registry is asked for
    [models:/{model_name}/{version}]. *)
Definition get_fitted_model (model_name : string) (version : Z) (s : LState)
  : outcome unit * LState :=
  match load_model L model_name version with
  | Raise e => (Raise e, s)
  | Ok impl => (Ok tt, {| frames := frames s; lasso_model := Some impl |})
  end.

End LassoModel.

(** ** More worked worlds *)

Module Demo2.

(** A nearest-neighbour estimator refuses a non-positive [n_neighbors] when
    it is fitted; everything else is as in [Demo.world]. *)
Definition picky_fit (est : Estimator) (X_train : frame Q) (y : list Q) : outcome nat :=
  match options est with
  | ("n_neighbors", VInt z) :: _ =>
      if (z <=? 0)%Z then Raise (ValueError "Expected n_neighbors > 0")
      else Ok (length (rows X_train))
  | _ => Ok (length (rows X_train))
  end.

Definition world_picky : World Q := {|
  Fitted := nat;
  kf_split := Demo.kfold;
  init_check := fun _ _ => None;
  model_fit := picky_fit;
  get_all_metrics := fun n _ _ => Ok [("accuracy", MNum (1 # Pos.of_nat (S n)))];
  from_multiple_metrics := from_multiple_metrics Demo.world;
  random_draw := fun i => i
|}.

(** A constructor that rejects every keyword argument set. *)
Definition world_strict : World Q := {|
  Fitted := nat;
  kf_split := Demo.kfold;
  init_check := fun _ _ => Some (TypeError "__init__() got an unexpected keyword argument");
  model_fit := fun _ X_train _ => Ok (length (rows X_train));
  get_all_metrics := fun n _ _ => Ok [("accuracy", MNum (1 # Pos.of_nat (S n)))];
  from_multiple_metrics := from_multiple_metrics Demo.world;
  random_draw := fun i => i
|}.

(** A table other than the pipeline's under the module-level [X]. *)
Definition other_table : frame Q := Frame ["a"; "b"; "c"] [[1; 2; 3]]%Q.

Definition init_other : State Q :=
  {| heap := [Demo.table; Demo.labels; other_table];
     self_params := []; self_scores := []; rng_pos := 0 |}.

Definition script_other : Globals := {| global_X := Some 2 |}.

(** In the examples the value [-1] plays the part of a missing cell; the
    split puts every row in the training part. *)
Definition lasso_world : LassoWorld Q := {|
  Model := list string;
  is_na := fun q => Qeq_bool q (-1 # 1);
  train_test_split := fun X y =>
    match rows X with
    | [] => Raise (ValueError "With n_samples=0, test_size=0.2 and train_size=None, the resulting train set will be empty.")
    | _ :: _ => Ok (X, Frame (columns X) [], y, Frame (columns y) [])
    end;
  lr_fit := fun _ X_train _ => Ok (columns X_train);
  model_predict := fun m X => Ok (map (fun _ => 1%Q) (rows X));
  model_predict_proba := fun m X => Ok (map (fun _ => [0; 1]%Q) (rows X));
  load_model := fun name version =>
    if (version =? 1)%Z then Ok [name] else Raise (KeyError "version")
|}.

Definition bookings : frame Q :=
  Frame ["PRICE"; "UPGRADED_FLAG"] [[10; 1]; [(-1 # 1); 0]; [30; 0]]%Q.

Definition lasso_start : LassoState Q (list string) := lasso_init lasso_world [bookings].

End Demo2.

(** ** More specification vocabulary *)

(** The estimator classes that predict a class. *)
Definition is_classifier (fam : Family) : bool :=
  match fam with
  | XGBClassifier | LogisticRegression | KNeighborsClassifier
  | CatBoostClassifier | LGBMClassifier => true
  | XGBRegressor | KNeighborsRegressor | CatBoostRegressor | LGBMRegressor => false
  end.

(** The positions of an axis of length [n] that [iloc] accepts. *)
Definition in_range (n : nat) (i : Z) : bool :=
  ((- Z.of_nat n <=? i) && (i <? Z.of_nat n))%Z.

(** The number of entries random search draws for. *)
Definition count_lists (space : dict) : nat :=
  length (List.filter (fun kv => match snd kv with VList _ => true | _ => false end) space).

(** * Verification *)

(** ** The monad *)

Section MonadFacts.
Context {F : Type}.
Implicit Types s : State F.

Lemma bind_ok {A B} (m : M F A) (k : A -> M F B) s a s' :
  m s = (Ok a, s') -> bind m k s = k a s'.
Proof. intros E. unfold bind. now rewrite E. Qed.

Lemma bind_raise {A B} (m : M F A) (k : A -> M F B) s e s' :
  m s = (Raise e, s') -> bind m k s = (Raise e, s').
Proof. intros E. unfold bind. now rewrite E. Qed.


Variable I : State F -> Prop.

Lemma keeps_ret {A} (a : A) (post : A -> Prop) : post a -> keeps I (ret a) post.
Proof. intros Hp s Hs. split; [exact Hs |]. cbn. intros b [= <-]. exact Hp. Qed.

Lemma keeps_raise {A} e (post : A -> Prop) : keeps I (raise e) post.
Proof. intros s Hs. split; [exact Hs |]. cbn. discriminate. Qed.

Lemma keeps_lift {A} (o : outcome A) : keeps I (lift o) (fun _ => True).
Proof. intros s Hs. split; [exact Hs | trivial]. Qed.

Lemma keeps_bind {A B} (m : M F A) (k : A -> M F B) (P : A -> Prop) (Q : B -> Prop) :
  keeps I m P -> (forall a, P a -> keeps I (k a) Q) -> keeps I (bind m k) Q.
Proof.
  intros Hm Hk s Hs. destruct (Hm s Hs) as [Hi Hp]. unfold bind.
  destruct (m s) as [[a | e] s1]; cbn in *.
  - apply (Hk a (Hp a eq_refl) s1 Hi).
  - split; [exact Hi | discriminate].
Qed.

Lemma keeps_weaken {A} (m : M F A) (P Q : A -> Prop) :
  keeps I m P -> (forall a, P a -> Q a) -> keeps I m Q.
Proof.
  intros Hm HPQ s Hs. destruct (Hm s Hs) as [Hi Hp]. split; [exact Hi |].
  intros a Ha. apply HPQ, Hp, Ha.
Qed.

Lemma keeps_map_m {A B} (f : A -> M F B) (l : list A) :
  (forall x, keeps I (f x) (fun _ => True)) -> keeps I (map_m f l) (fun _ => True).
Proof.
  intros Hf. induction l as [| x l IH]; cbn [map_m].
  - now apply keeps_ret.
  - eapply keeps_bind; [apply Hf |]. intros b _.
    eapply keeps_bind; [apply IH |]. intros bs _. now apply keeps_ret.
Qed.

Lemma keeps_for_each {A} (body : A -> M F unit) (l : list A) :
  (forall x, keeps I (body x) (fun _ => True)) -> keeps I (for_each l body) (fun _ => True).
Proof.
  intros Hb. induction l as [| x l IH]; cbn [for_each].
  - now apply keeps_ret.
  - eapply keeps_bind; [apply Hb |]. intros _ _. apply IH.
Qed.

Lemma keeps_repeat_m (body : M F unit) (n : nat) :
  keeps I body (fun _ => True) -> keeps I (repeat_m n body) (fun _ => True).
Proof.
  intros Hb. induction n as [| n IH]; cbn [repeat_m].
  - now apply keeps_ret.
  - eapply keeps_bind; [apply Hb |]. intros _ _. apply IH.
Qed.

End MonadFacts.

(** ** The object store: what each pandas operation may touch *)

Section StoreFacts.
Context {F : Type}.
Variables (n : nat) (h0 : list (frame F)) (ps : list dict) (sc : list Metrics) (rp : nat).

Local Abbreviation I := (Inv n h0 ps sc rp).

Lemma keeps_read l : keeps I (read (F := F) l) (fun _ => True).
Proof.
  intros s Hs. unfold read. destruct (heap s !! l); cbn; auto.
Qed.

Lemma keeps_alloc f : keeps I (alloc f) (fun l => n <= l).
Proof.
  intros s (Hn & Ht & Hp & Hc & Hr). unfold alloc, Inv; cbn. split.
  - rewrite length_app, take_app_le by exact Hn. cbn. repeat split; auto; lia.
  - intros a [= <-]. exact Hn.
Qed.

Lemma keeps_write l f : n <= l -> keeps I (write l f) (fun _ => True).
Proof.
  intros Hl s (Hn & Ht & Hp & Hc & Hr). unfold write, Inv; cbn. split; [| trivial].
  rewrite length_insert, take_insert_ge by exact Hl. auto.
Qed.

Lemma keeps_iloc_rows l idx : keeps I (iloc_rows (F := F) l idx) (fun l' => n <= l').
Proof.
  unfold iloc_rows. eapply keeps_bind; [apply keeps_read |]. intros f _.
  destruct (take_rows (rows f) idx).
  - apply keeps_alloc.
  - apply keeps_raise.
Qed.

Lemma keeps_iloc_cols l mask : keeps I (iloc_cols (F := F) l mask) (fun _ => True).
Proof.
  unfold iloc_cols. eapply keeps_bind; [apply keeps_read |]. intros f _.
  destruct (length mask =? length (columns f)).
  - now apply keeps_ret.
  - apply keeps_raise.
Qed.

(** Assignment through [iloc] writes the object it is applied to, and only
    that one. *)
Lemma keeps_iloc_cols_set l mask vals :
  n <= l -> keeps I (iloc_cols_set (F := F) l mask vals) (fun _ => True).
Proof.
  intros Hl. unfold iloc_cols_set. eapply keeps_bind; [apply keeps_read |]. intros f _.
  destruct (negb _); [apply keeps_raise |].
  destruct (negb _); [apply keeps_raise |].
  now apply keeps_write.
Qed.

End StoreFacts.

(** ** Cross-validation leaves the older objects and the trial log alone *)

Section EvaluationFacts.
Context {F : Type} `{Float64 F}.
Variable W : World F.
Variable G : Globals.
Variables (n : nat) (h0 : list (frame F)) (ps : list dict) (sc : list Metrics) (rp : nat).

Local Abbreviation I := (Inv n h0 ps sc rp).

Lemma keeps_mask self : keeps I (map_cols_to_scale_to_boolean G self) (fun _ => True).
Proof.
  unfold map_cols_to_scale_to_boolean. destruct (global_X G) as [gx |].
  - eapply keeps_bind; [apply keeps_read |]. intros f _. now apply keeps_ret.
  - apply keeps_raise.
Qed.

Lemma keeps_slice_fold self train_index test_index :
  keeps I (slice_fold self train_index test_index)
        (fun sl => n <= fst (fst (fst sl)) /\ n <= snd (fst (fst sl))).
Proof.
  unfold slice_fold.
  eapply keeps_bind; [apply keeps_iloc_rows |]. intros X_train Htr.
  eapply keeps_bind; [apply keeps_iloc_rows |]. intros X_test Hte.
  eapply keeps_bind; [apply keeps_iloc_rows |]. intros y_train _.
  eapply keeps_bind; [apply keeps_iloc_rows |]. intros y_test _.
  apply keeps_ret. cbn. auto.
Qed.

Lemma keeps_fit_on_train self X_train :
  n <= X_train -> keeps I (fit_on_train G self X_train) (fun _ => True).
Proof.
  intros Hl. unfold fit_on_train.
  eapply keeps_bind; [apply keeps_mask |]. intros mask _.
  eapply keeps_bind; [apply keeps_iloc_cols |]. intros sub _.
  eapply keeps_bind; [apply keeps_lift |]. intros fitted _.
  eapply keeps_bind; [apply keeps_mask |]. intros mask' _.
  eapply keeps_bind; [now apply keeps_iloc_cols_set |]. intros _ _.
  now apply keeps_ret.
Qed.

Lemma keeps_transform_test self scaler X_test :
  n <= X_test -> keeps I (transform_test G self scaler X_test) (fun _ => True).
Proof.
  intros Hl. unfold transform_test.
  eapply keeps_bind; [apply keeps_mask |]. intros mask _.
  eapply keeps_bind; [apply keeps_iloc_cols |]. intros sub _.
  eapply keeps_bind; [apply keeps_lift |]. intros scaled _.
  eapply keeps_bind; [apply keeps_mask |]. intros mask' _.
  now apply keeps_iloc_cols_set.
Qed.

Lemma keeps_fit_stage self train_index test_index :
  keeps I (fit_stage G self train_index test_index)
        (fun st => n <= snd (fst (fst (snd st)))).
Proof.
  unfold fit_stage.
  eapply keeps_bind; [apply keeps_slice_fold |]. intros sl [Htr Hte].
  eapply keeps_bind; [now apply keeps_fit_on_train |]. intros scaler _.
  now apply keeps_ret.
Qed.

Lemma keeps_get_scaled self train_index test_index :
  keeps I (get_scaled_train_and_test_sets G self train_index test_index) (fun _ => True).
Proof.
  unfold get_scaled_train_and_test_sets.
  eapply keeps_bind; [apply keeps_fit_stage |]. intros st Hte.
  eapply keeps_bind; [now apply keeps_transform_test |]. intros _ _.
  now apply keeps_ret.
Qed.

Lemma keeps_create_preds self train_index test_index it :
  keeps I (create_preds_for_hypers W G self train_index test_index it) (fun _ => True).
Proof.
  unfold create_preds_for_hypers.
  eapply keeps_bind; [apply keeps_lift |]. intros model _.
  eapply keeps_bind; [apply keeps_get_scaled |]. intros sl _.
  eapply keeps_bind; [apply keeps_read |]. intros X_train _.
  eapply keeps_bind; [apply keeps_read |]. intros y_train _.
  eapply keeps_bind; [apply keeps_lift |]. intros fitted _.
  eapply keeps_bind; [apply keeps_read |]. intros X_test _.
  eapply keeps_bind; [apply keeps_read |]. intros y_test _.
  apply keeps_lift.
Qed.

Lemma keeps_create_splits self n_splits it :
  keeps I (create_splits_and_calc_scores W G self n_splits it) (fun _ => True).
Proof.
  unfold create_splits_and_calc_scores.
  eapply keeps_bind; [apply keeps_read |]. intros fX _.
  eapply keeps_bind; [apply keeps_read |]. intros fy _.
  eapply keeps_bind; [apply keeps_lift |]. intros folds _.
  eapply keeps_bind; [apply keeps_map_m; intros fold; apply keeps_create_preds |].
  intros per_fold _. apply keeps_lift.
Qed.

End EvaluationFacts.

(** ** One trial, and the two search loops *)

Section SearchFacts.
Context {F : Type} `{Float64 F}.
Variable W : World F.
Variable G : Globals.
Variables (n : nat) (h0 : list (frame F)).

(** The configuration is appended before the evaluation starts; the score
    only when the evaluation returned. *)
Lemma append_params_spec self it n_splits ps sc rp s :
  Inv n h0 ps sc rp s ->
  match fst (append_params_and_calculate_scores W G self it n_splits s) with
  | Ok _ =>
      exists score,
        Inv n h0 (ps ++ [it]) (sc ++ [score]) rp
            (snd (append_params_and_calculate_scores W G self it n_splits s))
  | Raise _ =>
      Inv n h0 (ps ++ [it]) sc rp
          (snd (append_params_and_calculate_scores W G self it n_splits s))
  end.
Proof.
  intros (Hn & Ht & Hp & Hc & Hr).
  unfold append_params_and_calculate_scores, bind at 1. cbn.
  set (s1 := {| heap := heap s; self_params := self_params s ++ [it];
                self_scores := self_scores s; rng_pos := rng_pos s |}).
  assert (H1 : Inv n h0 (ps ++ [it]) sc rp s1).
  { unfold Inv, s1; cbn. subst. auto. }
  destruct (keeps_create_splits W G n h0 (ps ++ [it]) sc rp self n_splits it s1 H1)
    as [H2 _].
  unfold bind.
  destruct (create_splits_and_calc_scores W G self n_splits it s1) as [[score | e] s2];
    cbn in *.
  - exists score. destruct H2 as (Hn2 & Ht2 & Hp2 & Hc2 & Hr2).
    unfold Inv; cbn. subst. rewrite Hc2. auto.
  - exact H2.
Qed.

(** Trials of a grid run: [k] configurations were appended; when the run
    returns all of them have a score, when it raises the last one has none. *)
Lemma grid_loop_spec self n_splits rp (grid : list dict) :
  forall ps sc s,
    Inv n h0 ps sc rp s ->
    let r := for_each grid (fun it => append_params_and_calculate_scores W G self it n_splits) s in
    exists k sc',
      k <= length grid /\
      Inv n h0 (ps ++ take k grid) sc' rp (snd r) /\
      match fst r with
      | Ok _ => k = length grid /\ length sc' = length sc + length grid
      | Raise _ => S (length sc') = length sc + k
      end.
Proof.
  induction grid as [| it grid IH]; intros ps sc s Hs; cbn [for_each].
  - exists 0, sc. cbn. rewrite app_nil_r. split; [lia |]. split; [exact Hs |]. split; lia.
  - pose proof (append_params_spec self it n_splits ps sc rp s Hs) as Hstep.
    cbv zeta. unfold bind.
    destruct (append_params_and_calculate_scores W G self it n_splits s) as [[[] | e] s1];
      cbn in Hstep |- *.
    + destruct Hstep as [score H1].
      destruct (IH _ _ _ H1) as (k & sc' & Hk & Hinv & Hres).
      exists (S k), sc'. cbn [take length]. split; [lia |]. split.
      * rewrite <- app_assoc in Hinv. exact Hinv.
      * destruct (fst (for_each grid _ s1)).
        -- destruct Hres as [-> Hl]. rewrite length_app in Hl. cbn in Hl. split; lia.
        -- rewrite length_app in Hres. cbn in Hres. lia.
    + exists 1, sc. cbn [take length]. rewrite take_0. split; [lia |]. split; [exact Hstep |].
      lia.
Qed.

(** Sampling a configuration only advances the generator. *)
Lemma get_random_params_frame (space : dict) :
  forall ps sc rp s,
    Inv n h0 ps sc rp s ->
    exists rp', Inv n h0 ps sc rp' (snd (get_random_params W space s)).
Proof.
  induction space as [| [k v] space IH]; intros ps sc rp s Hs; cbn [get_random_params].
  - exists rp. exact Hs.
  - assert (Hv : exists rp1, Inv n h0 ps sc rp1
              (snd (match v with VList l => random_choice W l | _ => ret v end s))).
    { destruct v; try (exists rp; exact Hs).
      unfold random_choice. destruct l; [exists rp; exact Hs |].
      exists (S rp). destruct Hs as (Hn & Ht & Hp & Hc & Hr). unfold Inv; cbn.
      rewrite Hr. auto. }
    destruct Hv as [rp1 H1]. unfold bind at 1.
    destruct (match v with VList l => random_choice W l | _ => ret v end s)
      as [[v' | e] s1]; cbn in H1 |- *.
    + destruct (IH ps sc rp1 s1 H1) as [rp2 H2]. exists rp2. unfold bind.
      destruct (get_random_params W space s1) as [[rest | e] s2]; exact H2.
    + exists rp1. exact H1.
Qed.

Lemma random_loop_frame self n_splits (iters : nat) :
  forall ps sc rp s,
    Inv n h0 ps sc rp s ->
    exists ps' sc' rp',
      Inv n h0 ps' sc' rp'
          (snd (repeat_m iters
                  (bind (get_random_params W (self_param_space self))
                        (fun it => append_params_and_calculate_scores W G self it n_splits))
                  s)).
Proof.
  induction iters as [| iters IH]; intros ps sc rp s Hs; cbn [repeat_m].
  - exists ps, sc, rp. exact Hs.
  - destruct (get_random_params_frame (self_param_space self) ps sc rp s Hs) as [rp1 H1].
    unfold bind at 1 2.
    destruct (get_random_params W (self_param_space self) s) as [[it | e] s1]; cbn in H1.
    + pose proof (append_params_spec self it n_splits ps sc rp1 s1 H1) as Hstep.
      destruct (append_params_and_calculate_scores W G self it n_splits s1)
        as [[[] | e] s2]; cbn in Hstep.
      * destruct Hstep as [score H2]. apply (IH _ _ _ _ H2).
      * eauto.
    + eauto.
Qed.

Lemma search_for_params_frame self algo n_splits kwargs ps sc rp s :
  Inv n h0 ps sc rp s ->
  exists ps' sc' rp',
    Inv n h0 ps' sc' rp' (snd (search_for_params W G self algo n_splits kwargs s)).
Proof.
  intros Hs. unfold search_for_params.
  destruct (String.eqb algo "random").
  - destruct kwargs as [n_iters |]; [| cbn; eauto].
    apply (random_loop_frame self n_splits _ _ _ _ _ Hs).
  - destruct (String.eqb algo "grid"); [| cbn; eauto].
    unfold optimize_hypers_using_grid_search, bind at 1, lift.
    destruct (ParameterGrid (self_param_space self)) as [grid | e]; [| cbn; eauto].
    destruct (grid_loop_spec self n_splits rp grid ps sc s Hs) as (k & sc' & _ & Hinv & _).
    eauto.
Qed.

End SearchFacts.

(** ** The shared dataset *)

Lemma Inv_initial {F} (s : State F) :
  Inv (length (heap s)) (heap s) (self_params s) (self_scores s) (rng_pos s) s.
Proof.
  unfold Inv. rewrite firstn_all. auto.
Qed.

(** C9.  Whatever the search strategy, the number of configurations and of
    folds, and whether the run returns or raises: the feature table [self.X]
    and the label table [self.y] hold after the run what they held before
    it, as does every other object that existed before the run.  Scaling
    writes only the slices allocated for the fold. *)
Theorem search_leaves_dataset_unchanged {F} `{Float64 F} (W : World F) (G : Globals)
    self algo n_splits kwargs (s : State F) fX fy :
  heap s !! self_X self = Some fX ->
  heap s !! self_y self = Some fy ->
  let s' := snd (search_for_params W G self algo n_splits kwargs s) in
  heap s' !! self_X self = Some fX /\
  heap s' !! self_y self = Some fy /\
  take (length (heap s)) (heap s') = heap s.
Proof.
  intros HX Hy s'.
  destruct (search_for_params_frame W G (length (heap s)) (heap s) self algo n_splits kwargs
              _ _ _ s (Inv_initial s)) as (ps' & sc' & rp' & Hn & Ht & _).
  fold s' in Hn, Ht.
  assert (Hlook : forall l f, heap s !! l = Some f -> heap s' !! l = Some f).
  { intros l f Hl. rewrite <- Ht in Hl.
    rewrite lookup_take_lt in Hl; [exact Hl |].
    apply lookup_lt_Some in Hl. rewrite length_take in Hl. lia. }
  auto.
Qed.

Lemma search_leaves_dataset_unchanged_witness :
  heap Demo.init !! 0 = Some Demo.table /\
  heap Demo.init !! 1 = Some Demo.labels /\
  let s' := snd (search_for_params Demo.world Demo.script
                   (Demo.pipeline "xgb" true [("max_depth", VList [VInt 2; VInt 4])] ["col_0"])
                   "grid" 2 None Demo.init) in
  heap s' !! 0 = Some Demo.table /\
  heap s' !! 1 = Some Demo.labels /\
  take 2 (heap s') = heap Demo.init.
Proof.
  split; [reflexivity |]. split; [reflexivity |].
  apply (search_leaves_dataset_unchanged Demo.world Demo.script
           (Demo.pipeline "xgb" true [("max_depth", VList [VInt 2; VInt 4])] ["col_0"])
           "grid" 2 None Demo.init Demo.table Demo.labels); reflexivity.
Defined.

(** ** A trial that fails *)

(** When the evaluation raises, the configuration stays in [self.params] and
    [self.scores] is as before. *)
Lemma failed_trial_keeps_configuration {F} `{Float64 F} (W : World F) (G : Globals)
    self it n_splits (s : State F) e s' :
  append_params_and_calculate_scores W G self it n_splits s = (Raise e, s') ->
  self_params s' = self_params s ++ [it] /\ self_scores s' = self_scores s.
Proof.
  intros E.
  pose proof (append_params_spec W G _ _ self it n_splits _ _ _ s (Inv_initial s)) as Hs.
  rewrite E in Hs. cbn in Hs. destruct Hs as (_ & _ & Hp & Hc & _). auto.
Qed.

(** C4.  A trial whose training fails: the error reaches the caller and no
    score is recorded, but the configuration of the failed trial has been
    appended to the recorded params, which no longer equal those of the
    completed trials. *)
Theorem failed_trial_is_recorded_in_params :
  let it := [("n_neighbors", VInt 3)] in
  let r := append_params_and_calculate_scores Demo.world_fit_fails Demo.script
             (Demo.pipeline "knn" true [] ["col_0"]) it 2 Demo.init in
  fst r = Raise (ValueError "training failed") /\
  self_params (snd r) = [it] /\
  self_scores (snd r) = [] /\
  self_params (snd r) <> self_params Demo.init.
Proof.
  cbv zeta.
  destruct (append_params_and_calculate_scores Demo.world_fit_fails Demo.script
              (Demo.pipeline "knn" true [] ["col_0"]) [("n_neighbors", VInt 3)] 2 Demo.init)
    as [r s'] eqn:E.
  assert (Hr : r = Raise (ValueError "training failed")).
  { apply (f_equal fst) in E. cbn [fst] in E. rewrite <- E. vm_compute. reflexivity. }
  subst r. destruct (failed_trial_keeps_configuration _ _ _ _ _ _ _ _ E) as [Hp Hc].
  cbn [fst snd]. rewrite Hp, Hc. cbn. repeat split. discriminate.
Qed.

(** ** The parameter grid *)

Section GridFacts.

Lemma insert_item_perm kv (d : dict) : Permutation (kv :: d) (insert_item kv d).
Proof.
  induction d as [| kv' d IH]; cbn [insert_item].
  - reflexivity.
  - destruct (String.leb (fst kv) (fst kv')).
    + reflexivity.
    + rewrite perm_swap. now constructor.
Qed.

Lemma sorted_perm (d : dict) : Permutation d (sorted d).
Proof.
  induction d as [| kv d IH]; cbn.
  - reflexivity.
  - rewrite <- insert_item_perm. now constructor.
Qed.

Lemma list_prod_perm (l l' : list nat) : Permutation l l' -> list_prod l = list_prod l'.
Proof.
  induction 1 as [| x l l' _ IH | x y l | l l' l'' _ IH1 _ IH2];
    unfold list_prod in *; cbn [fold_right].
  - reflexivity.
  - now rewrite IH.
  - now rewrite !Nat.mul_assoc, (Nat.mul_comm y x).
  - congruence.
Qed.

Lemma product_length {A} (ls : list (list A)) :
  length (product ls) = list_prod (map (@length A) ls).
Proof.
  induction ls as [| l ls IH]; cbn [product map list_prod fold_right].
  - reflexivity.
  - fold (list_prod (map (@length A) ls)). rewrite <- IH.
    induction l as [| x l IHl]; cbn [flat_map length].
    + reflexivity.
    + rewrite length_app, length_map, IHl. cbn. lia.
Qed.

Lemma in_product {A} (ls : list (list A)) (c : list A) :
  In c (product ls) <-> Forall2 (fun l x => In x l) ls c.
Proof.
  revert c. induction ls as [| l ls IH]; intros c; cbn [product].
  - split.
    + intros [<- | []]. constructor.
    + intros Hc. inversion Hc. now left.
  - rewrite in_flat_map. split.
    + intros (x & Hx & Hc). apply in_map_iff in Hc as (c' & <- & Hc').
      constructor; [exact Hx | now apply IH].
    + intros Hc. inversion Hc as [| ? x ? c' Hx Hc']; subst.
      exists x. split; [exact Hx |]. apply in_map_iff. exists c'. split; [reflexivity |].
      now apply IH.
Qed.




(** Iteration as one expression: the special case of the empty grid yields
    the same single empty configuration. *)
Lemma ParameterGrid_iter_unfold (d : dict) :
  ParameterGrid_iter d =
  map (zip (map fst (sorted d)))
      (product (map (fun kv => sequence_items (snd kv)) (sorted d))).
Proof.
  unfold ParameterGrid_iter. now destruct (sorted d).
Qed.

Lemma ParameterGrid_iter_length (d : dict) :
  length (ParameterGrid_iter d) =
  list_prod (map (fun kv => length (sequence_items (snd kv))) d).
Proof.
  rewrite ParameterGrid_iter_unfold, length_map, product_length, map_map.
  apply list_prod_perm, Permutation_map. symmetry. apply sorted_perm.
Qed.

Lemma combination_iff (items cfg : dict) :
  combination items cfg <->
  exists c, Forall2 (fun l x => In x l) (map (fun kv => sequence_items (snd kv)) items) c /\
            cfg = zip (map fst items) c.
Proof.
  revert cfg. induction items as [| kv items IH]; intros cfg; cbn [map].
  - split.
    + intros Hc. inversion Hc. exists []. split; [constructor | reflexivity].
    + intros (c & Hc & ->). inversion Hc. constructor.
  - split.
    + intros Hc. inversion Hc as [| ? [k v] ? cfg' [Hk Hv] Hrest]; subst.
      apply IH in Hrest as (c & Hc' & ->). exists (v :: c). cbn in *. subst k.
      split; [now constructor | reflexivity].
    + intros (c & Hc & ->). inversion Hc as [| ? v ? c' Hv Hc']; subst.
      cbn. constructor; [cbn; auto |]. apply IH. eauto.
Qed.

Lemma in_ParameterGrid_iter (d cfg : dict) :
  In cfg (ParameterGrid_iter d) <-> combination (sorted d) cfg.
Proof.
  rewrite ParameterGrid_iter_unfold, in_map_iff, combination_iff.
  split; intros (c & H1 & H2).
  - exists c. split; [now apply in_product | now subst].
  - exists c. split; [now subst | now apply in_product].
Qed.


(** Construction accepts a space all of whose entries are non-empty
    sequences. *)
Lemma ParameterGrid_accepts (d : dict) :
  forallb (fun kv => grid_entry (snd kv)) d = true ->
  ParameterGrid d = Ok (ParameterGrid_iter d).
Proof.
  intros Hd. unfold ParameterGrid.
  assert (Hv : exists cs, omapM (fun kv => candidates (snd kv)) d = Ok cs).
  { induction d as [| [k v] d IH]; cbn [omapM forallb] in *.
    - eauto.
    - apply andb_true_iff in Hd as [Hv Hd]. destruct (IH Hd) as [cs ->].
      destruct v as [| | | | | [| x l] | [| x l]]; try discriminate; cbn; eauto. }
  destruct Hv as [cs ->]. reflexivity.
Qed.

(** Construction rejects a space with an entry that is not a non-empty
    sequence. *)
Lemma ParameterGrid_rejects (d : dict) :
  forallb (fun kv => grid_entry (snd kv)) d = false ->
  exists e, ParameterGrid d = Raise e.
Proof.
  intros Hd. unfold ParameterGrid.
  assert (Hv : exists e, omapM (fun kv => candidates (snd kv)) d = Raise e).
  { induction d as [| [k v] d IH]; cbn [omapM forallb] in *.
    - discriminate.
    - apply andb_false_iff in Hd as [Hv | Hd].
      + destruct v as [| | | | | [| x l] | [| x l]]; try discriminate; cbn; eauto.
      + destruct (IH Hd) as [e ->]. cbn [snd]. destruct (candidates v); cbn; eauto. }
  destruct Hv as [e ->]. cbn. eauto.
Qed.

End GridFacts.

(** ** Grid search *)

Lemma Inv_trivial {F} (s : State F) :
  Inv 0 [] (self_params s) (self_scores s) (rng_pos s) s.
Proof.
  unfold Inv. rewrite take_0. repeat split; auto. lia.
Qed.




(** Grid search raises before any trial when an entry is not a non-empty
    sequence. *)
Lemma grid_search_needs_sequences {F} `{Float64 F} (W : World F) (G : Globals)
    self n_splits (s : State F) :
  forallb (fun kv => grid_entry (snd kv)) (self_param_space self) = false ->
  exists e, optimize_hypers_using_grid_search W G self n_splits s = (Raise e, s).
Proof.
  intros Hsp. destruct (ParameterGrid_rejects _ Hsp) as [e He].
  exists e. unfold optimize_hypers_using_grid_search, bind, lift. now rewrite He.
Qed.

(** C8.  On a parameter space with a single fixed entry, the kind of space
    random search resolves to itself, grid search raises a [TypeError] and
    records no trial. *)
Theorem grid_search_rejects_fixed_entries :
  let space := [("max_depth", VInt 5)] in
  let self := Demo.pipeline "xgb" true space ["col_0"; "col_1"] in
  let r := search_for_params Demo.world Demo.script self "grid" 2 None Demo.init in
  (exists msg, fst r = Raise (TypeError msg)) /\
  self_params (snd r) = [] /\
  self_scores (snd r) = [] /\
  fst (get_random_params Demo.world space Demo.init) = Ok space.
Proof.
  cbv zeta. split; [eexists; vm_compute; reflexivity |].
  repeat split; vm_compute; reflexivity.
Qed.

(** ** Random sampling of a configuration *)

Lemma get_random_params_ok {F} (W : World F) (space : dict) :
  forallb (fun kv => negb (empty_list (snd kv))) space = true ->
  forall s : State F,
    exists cfg s', get_random_params W space s = (Ok cfg, s') /\ resolves space cfg.
Proof.
  induction space as [| [k v] space IH]; intros Hsp s; cbn [get_random_params forallb] in *.
  - exists [], s. split; [reflexivity | constructor].
  - apply andb_true_iff in Hsp as [Hv Hsp]. cbn [snd] in Hv.
    assert (Hc : exists v' s1,
               match v with VList l => random_choice W l | _ => ret v end s = (Ok v', s1) /\
               match v with VList l => In v' l | _ => v' = v end).
    { destruct v as [| | | | | l |];
        try (eexists _, s; split; [reflexivity | reflexivity]).
      destruct l as [| x l]; [discriminate Hv |].
      eexists _, _. split; [reflexivity |].
      apply nth_In. apply Nat.mod_upper_bound. discriminate. }
    destruct Hc as (v' & s1 & E1 & Hin).
    destruct (IH Hsp s1) as (rest & s2 & E2 & Hrest).
    exists ((k, v') :: rest), s2. split.
    + unfold bind at 1. rewrite E1. unfold bind at 1. rewrite E2. reflexivity.
    + constructor; [| exact Hrest]. split; [reflexivity |]. cbn [snd]. destruct v; exact Hin.
Qed.

Lemma resolves_keys (space cfg : dict) : resolves space cfg -> keys cfg = keys space.
Proof.
  unfold keys. induction 1 as [| kv cv space cfg [Hk _] _ IH]; cbn [map];
    [reflexivity | now rewrite Hk, IH].
Qed.

(** C10 (amended).  For a parameter space none of whose values is the empty
    list, [get_random_params] returns a dict with the same keys in the same
    order, in which each value that is exactly a list is replaced by one of
    its elements and every other value, a tuple included, is the value of the
    space. *)
Theorem get_random_params_resolves {F} (W : World F) (space : dict) (s : State F) :
  forallb (fun kv => negb (empty_list (snd kv))) space = true ->
  exists cfg,
    fst (get_random_params W space s) = Ok cfg /\
    keys cfg = keys space /\
    resolves space cfg.
Proof.
  intros Hsp. destruct (get_random_params_ok W space Hsp s) as (cfg & s' & E & Hres).
  exists cfg. rewrite E. split; [reflexivity |]. split; [now apply resolves_keys | exact Hres].
Qed.

Lemma get_random_params_resolves_witness :
  let space := [("max_depth", VList [VInt 2; VInt 4]); ("booster", VStr "gbtree");
                ("colsample", VTuple [VFloat (1 # 2); VFloat 1])] in
  forallb (fun kv => negb (empty_list (snd kv))) space = true /\
  exists cfg,
    fst (get_random_params Demo.world space Demo.init) = Ok cfg /\
    keys cfg = keys space /\
    resolves space cfg.
Proof.
  cbv zeta. split; [reflexivity |].
  apply (get_random_params_resolves Demo.world). reflexivity.
Defined.

(** C10 as stated fails on a space with an empty list: no dict is returned,
    the call raises. *)
Lemma get_random_params_empty_list_raises :
  fst (get_random_params Demo.world [("max_depth", VList [])] Demo.init)
  = Raise (IndexError "Cannot choose from an empty sequence") /\
  ~ exists cfg, fst (get_random_params Demo.world [("max_depth", VList [])] Demo.init) = Ok cfg.
Proof.
  split; [reflexivity |]. intros [cfg Hcfg]. discriminate Hcfg.
Qed.

(** ** The result selector *)

Section ArgmaxFacts.

Lemma mv_le_refl x : mv_le x x.
Proof. destruct x; cbn; [apply Qle_refl | exact Logic.I]. Qed.

Lemma mv_le_trans x y z : mv_le x y -> mv_le y z -> mv_le x z.
Proof.
  destruct x, y, z; cbn; try tauto. apply Qle_trans.
Qed.

Lemma np_le_true a mx : np_le a mx = true -> mv_le a mx /\ np_maximum mx a = mx.
Proof.
  destruct a as [x |], mx as [m |]; cbn; try discriminate.
  intros E. rewrite E. split; [now apply Qle_bool_iff | reflexivity].
Qed.

Lemma np_le_false a mx :
  is_nan mx = false -> np_le a mx = false ->
  mv_le mx a /\ ~ mv_le a mx /\ np_maximum mx a = a.
Proof.
  destruct a as [x |], mx as [m |]; cbn; try discriminate; intros _ E.
  - rewrite E. assert (Hn : ~ (x <= m)%Q).
    { intros Hle. apply Qle_bool_iff in Hle. congruence. }
    split; [| split; [exact Hn | reflexivity]].
    apply Qlt_le_weak, Qnot_le_lt, Hn.
  - split; [exact Logic.I | split; [tauto | reflexivity]].
Qed.

Lemma fold_maximum_nan l : fold_left np_maximum l MNaN = MNaN.
Proof. induction l as [| a l IH]; cbn; auto. Qed.

(** The scan, started on a maximal first occurrence of the prefix [pre],
    ends on a maximal first occurrence of the whole list, whose value is
    what [np.max] folds to. *)
Lemma argmax_scan_spec (l : list mvalue) :
  forall (pre : list mvalue) mx best,
    pre !! best = Some mx ->
    (forall j x, pre !! j = Some x -> mv_le x mx) ->
    (forall j x, j < best -> pre !! j = Some x -> ~ mv_le mx x) ->
    let r := argmax_scan mx best (length pre) l in
    let v := fold_left np_maximum l mx in
    (pre ++ l) !! r = Some v /\
    (forall j x, (pre ++ l) !! j = Some x -> mv_le x v) /\
    (forall j x, j < r -> (pre ++ l) !! j = Some x -> ~ mv_le v x).
Proof.
  induction l as [| a l IH]; intros pre mx best Hb Hmax Hfirst; cbn [argmax_scan fold_left].
  - cbv zeta. rewrite app_nil_r. auto.
  - pose proof (lookup_lt_Some _ _ _ Hb) as Hlt.
    destruct (is_nan mx) eqn:Hnan.
    + destruct mx; [discriminate |]. cbv zeta. rewrite fold_maximum_nan.
      split; [now apply lookup_app_l_Some |]. split.
      * intros j x _. now destruct x.
      * intros j x Hj Hx. rewrite lookup_app_l in Hx by lia. now apply (Hfirst j).
    + assert (Hlen : length (pre ++ [a]) = S (length pre))
        by (rewrite length_app; cbn; lia).
      assert (Happ : pre ++ a :: l = (pre ++ [a]) ++ l)
        by (now rewrite <- app_assoc).
      destruct (np_le a mx) eqn:Hle.
      * destruct (np_le_true _ _ Hle) as [Ha ->].
        rewrite Happ, <- Hlen. apply IH.
        -- now apply lookup_app_l_Some.
        -- intros j x Hx. apply lookup_app_Some in Hx as [Hx | [_ Hx]].
           ++ now apply (Hmax j).
           ++ destruct (j - length pre); cbn in Hx; [| discriminate].
              now injection Hx as <-.
        -- intros j x Hj Hx. rewrite lookup_app_l in Hx by lia. now apply (Hfirst j).
      * destruct (np_le_false _ _ Hnan Hle) as (Hup & Hstrict & ->).
        rewrite Happ, <- Hlen. apply IH.
        -- now apply list_lookup_middle.
        -- intros j x Hx. apply lookup_app_Some in Hx as [Hx | [_ Hx]].
           ++ apply mv_le_trans with mx; [now apply (Hmax j) | exact Hup].
           ++ destruct (j - length pre); cbn in Hx; [| discriminate].
              injection Hx as <-. apply mv_le_refl.
        -- intros j x Hj Hx Hax. rewrite lookup_app_l in Hx by lia.
           apply Hstrict. apply mv_le_trans with x; [exact Hax | now apply (Hmax j)].
Qed.

Lemma np_argmax_max (vals : list mvalue) :
  vals <> [] ->
  exists i v,
    np_argmax vals = Ok i /\ np_max vals = Ok v /\
    vals !! i = Some v /\
    (forall j x, vals !! j = Some x -> mv_le x v) /\
    (forall j x, j < i -> vals !! j = Some x -> ~ mv_le v x).
Proof.
  destruct vals as [| a l]; [congruence |]. intros _.
  exists (argmax_scan a 0 1 l), (fold_left np_maximum l a).
  split; [reflexivity |]. split; [reflexivity |].
  apply (argmax_scan_spec l [a] a 0).
  - reflexivity.
  - intros [| j] x Hx; cbn in Hx; [| discriminate]. injection Hx as <-. apply mv_le_refl.
  - intros j x Hj. lia.
Qed.

Lemma omapM_length {A B} (f : A -> outcome B) (l : list A) (out : list B) :
  omapM f l = Ok out -> length out = length l.
Proof.
  revert out. induction l as [| x l IH]; intros out; cbn [omapM].
  - now intros [= <-].
  - destruct (f x) as [b | e]; cbn; [| discriminate].
    destruct (omapM f l) as [bs | e]; cbn; [| discriminate].
    intros [= <-]. cbn. f_equal. now apply IH.
Qed.

End ArgmaxFacts.

(** C3.  On a state with at least one recorded score, each exposing the
    target metric with values [vals] in insertion order, and a configuration
    recorded for each score, [get_best_params] returns the configuration
    stored at a position [i] together with the value [vals] has there; that
    value is a maximum of [vals], and no earlier position holds a value as
    large: ties go to the first record. *)
Theorem get_best_params_first_maximum {F} self (s : State F) (vals : list mvalue) :
  omapM (fun metric_obj => get_metric_from_string metric_obj (self_metric self))
        (self_scores s) = Ok vals ->
  self_scores s <> [] ->
  length (self_scores s) <= length (self_params s) ->
  exists i best v,
    get_best_params self s = (Ok (best, v), s) /\
    self_params s !! i = Some best /\
    vals !! i = Some v /\
    (forall j x, vals !! j = Some x -> mv_le x v) /\
    (forall j x, j < i -> vals !! j = Some x -> ~ mv_le v x).
Proof.
  intros Hvals Hne Hlen.
  pose proof (omapM_length _ _ _ Hvals) as Hl.
  assert (Hv : vals <> []).
  { intros ->. destruct (self_scores s); [congruence | discriminate Hl]. }
  destruct (np_argmax_max vals Hv) as (i & v & Hi & Hmx & Hiv & Hmax & Hfirst).
  assert (Hp : is_Some (self_params s !! i)).
  { apply lookup_lt_is_Some. apply lookup_lt_Some in Hiv. lia. }
  destruct Hp as [best Hbest].
  exists i, best, v. split; [| auto].
  unfold get_best_params, bind, get_state, lift. rewrite Hvals, Hi, Hbest, Hmx. reflexivity.
Qed.

Lemma get_best_params_first_maximum_witness :
  let s := {| heap := [Demo.table; Demo.labels];
              self_params := [[("max_depth", VInt 2)]; [("max_depth", VInt 4)];
                              [("max_depth", VInt 8)]; [("max_depth", VInt 16)]];
              self_scores := [[("accuracy", MNum (7 # 10))]; [("accuracy", MNum (95 # 100))];
                              [("accuracy", MNum (81 # 100))]; [("accuracy", MNum (95 # 100))]];
              rng_pos := 0 |} in
  let self := Demo.pipeline "xgb" true [] [] in
  let vals := [MNum (7 # 10); MNum (95 # 100); MNum (81 # 100); MNum (95 # 100)] in
  omapM (fun metric_obj => get_metric_from_string metric_obj (self_metric self))
        (self_scores s) = Ok vals /\
  self_scores s <> [] /\
  length (self_scores s) <= length (self_params s) /\
  exists i best v,
    get_best_params self s = (Ok (best, v), s) /\
    self_params s !! i = Some best /\
    vals !! i = Some v /\
    (forall j x, vals !! j = Some x -> mv_le x v) /\
    (forall j x, j < i -> vals !! j = Some x -> ~ mv_le v x).
Proof.
  intros s self vals.
  assert (H1 : omapM (fun metric_obj => get_metric_from_string metric_obj (self_metric self))
                     (self_scores s) = Ok vals) by reflexivity.
  assert (H2 : self_scores s <> []) by discriminate.
  assert (H3 : length (self_scores s) <= length (self_params s)) by (cbn; lia).
  split; [exact H1 |]. split; [exact H2 |]. split; [exact H3 |].
  exact (get_best_params_first_maximum self s vals H1 H2 H3).
Defined.

(** The example of the specification: scores 0.7, 0.95, 0.81 select the
    configuration at index 1 with value 0.95. *)
Example get_best_params_example :
  fst (get_best_params (Demo.pipeline "xgb" true [] [])
         {| heap := [Demo.table; Demo.labels];
            self_params := [[("max_depth", VInt 2)]; [("max_depth", VInt 4)];
                            [("max_depth", VInt 8)]];
            self_scores := [[("accuracy", MNum (7 # 10))]; [("accuracy", MNum (95 # 100))];
                            [("accuracy", MNum (81 # 100))]];
            rng_pos := 0 |})
  = Ok ([("max_depth", VInt 4)], MNum (95 # 100)).
Proof. reflexivity. Qed.

(** C6.  With no score recorded, [get_best_params] raises the error of
    [np.argmax] on an empty sequence and returns no configuration; the state
    is as before. *)
Theorem get_best_params_no_trials {F} self (s : State F) :
  self_scores s = [] ->
  get_best_params self s
  = (Raise (ValueError "attempt to get argmax of an empty sequence"), s).
Proof.
  intros Hs. unfold get_best_params, bind, get_state, lift. rewrite Hs. reflexivity.
Qed.

Lemma get_best_params_no_trials_witness :
  self_scores Demo.init = [] /\
  get_best_params (Demo.pipeline "xgb" true [] []) Demo.init
  = (Raise (ValueError "attempt to get argmax of an empty sequence"), Demo.init).
Proof.
  split; [reflexivity |].
  apply (get_best_params_no_trials (Demo.pipeline "xgb" true [] []) Demo.init). reflexivity.
Defined.

(** ** The model resolver *)

(** Whatever the mode, the tag [lr] constructs a [LogisticRegression]. *)
Lemma determine_model_lr {F} (W : World F) self params :
  self_model self = "lr" ->
  determine_model W self params = construct W LogisticRegression params.
Proof.
  intros E. unfold determine_model. rewrite E. reflexivity.
Qed.

(** C5.  For the tag [lr] the mode is not consulted: in regression mode the
    resolver constructs the same [LogisticRegression] classifier as in
    classification mode, whereas for [knn] the two modes give the regressor
    and the classifier. *)
Theorem determine_model_lr_ignores_mode :
  let params := [("max_iter", VInt 333)] in
  determine_model Demo.world (Demo.pipeline "lr" false [] []) params
  = Ok {| family := LogisticRegression; options := params |} /\
  determine_model Demo.world (Demo.pipeline "lr" false [] []) params
  = determine_model Demo.world (Demo.pipeline "lr" true [] []) params /\
  determine_model Demo.world (Demo.pipeline "knn" false [] []) params
  = Ok {| family := KNeighborsRegressor; options := params |} /\
  determine_model Demo.world (Demo.pipeline "knn" true [] []) params
  = Ok {| family := KNeighborsClassifier; options := params |}.
Proof.
  cbv zeta. repeat split; reflexivity.
Qed.

(** ** The fold scaler *)

Section FoldScalerFacts.
Context {F : Type} `{Float64 F}.
Variable G : Globals.

Lemma select_none {A} (cs : list string) (xs : list A) :
  select (map (fun _ : string => false) cs) xs = [].
Proof.
  revert xs. induction cs as [| c cs IH]; intros [| x xs]; cbn; auto.
Qed.

Lemma check_array_no_columns (A : frame F) :
  columns A = [] -> exists e, check_array A = Raise e.
Proof.
  intros Hc. unfold check_array. rewrite Hc.
  destruct (existsb _ _); [eauto |]. destruct (length (rows A) =? 0); cbn; eauto.
Qed.

Lemma scaler_fit_transform_no_columns (A : frame F) :
  columns A = [] -> exists e, scaler_fit_transform A = Raise e.
Proof.
  intros Hc. destruct (check_array_no_columns A Hc) as [e He].
  exists e. unfold scaler_fit_transform, scaler_fit. now rewrite He.
Qed.

(** With nothing to scale the fit is handed a table without columns, which
    the scaler rejects; the other ways out are errors as well. *)
Lemma fit_on_train_nothing_to_scale self X_train (s : State F) :
  self_cols_to_scale self = [] ->
  exists e s', fit_on_train G self X_train s = (Raise e, s').
Proof.
  intros Hcols. unfold fit_on_train, map_cols_to_scale_to_boolean. rewrite Hcols.
  destruct (global_X G) as [gx |]; [| cbn; eauto].
  unfold bind at 1 2, read. destruct (heap s !! gx) as [g |]; [| eauto].
  cbn [ret existsb]. unfold iloc_cols, bind, read.
  destruct (heap s !! X_train) as [A |]; [| eauto].
  destruct (length _ =? length (columns A)); [| cbn; eauto].
  cbn [ret lift].
  destruct (scaler_fit_transform_no_columns
              (columns_where (map (fun _ : string => false) (columns g)) A))
    as [e He]; [apply select_none |].
  rewrite He. eauto.
Qed.

Lemma get_scaled_nothing_to_scale self train_index test_index (s : State F) :
  self_cols_to_scale self = [] ->
  exists e, fst (get_scaled_train_and_test_sets G self train_index test_index s) = Raise e.
Proof.
  intros Hcols. unfold get_scaled_train_and_test_sets, fit_stage, bind.
  destruct (slice_fold self train_index test_index s) as [[sl | e] s1]; [| cbn; eauto].
  destruct (fit_on_train_nothing_to_scale self (fst (fst (fst sl))) s1 Hcols)
    as (e & s2 & ->).
  cbn. eauto.
Qed.

End FoldScalerFacts.

(** C7.  With an empty list of columns to scale the fold scaler does not
    return the slices: in the script's setting the scaler raises on the
    table without columns it is given; in an importing module the
    module-level [X] is unbound. *)
Theorem empty_scalable_list_raises :
  let self := Demo.pipeline "xgb" true [] [] in
  (exists msg,
     fst (get_scaled_train_and_test_sets Demo.script self [0; 1]%Z [2; 3]%Z Demo.init)
     = Raise (ValueError msg)) /\
  fst (get_scaled_train_and_test_sets Demo.imported self [0; 1]%Z [2; 3]%Z Demo.init)
  = Raise (NameError "X") /\
  forall G train_index test_index,
    exists e,
      fst (get_scaled_train_and_test_sets G self train_index test_index Demo.init) = Raise e.
Proof.
  cbv zeta. split; [eexists; reflexivity |]. split; [reflexivity |].
  intros G train_index test_index. now apply get_scaled_nothing_to_scale.
Qed.

(** ** What the fit depends on *)

Section SliceFacts.
Context {F : Type}.
Implicit Types (s : State F) (rs : list (list F)).

Lemma positional_lt (n : nat) (i : Z) (k : nat) : positional n i = Some k -> k < n.
Proof.
  unfold positional.
  destruct ((0 <=? i)%Z && (i <? Z.of_nat n)%Z) eqn:E1.
  - intros [= <-]. apply andb_true_iff in E1 as [H1 H2]. lia.
  - destruct ((- Z.of_nat n <=? i)%Z && (i <? 0)%Z) eqn:E2; [| discriminate].
    intros [= <-]. apply andb_true_iff in E2 as [H1 H2]. lia.
Qed.

(** Whether a position is in range depends on the number of rows only. *)
Lemma row_at_defined rs1 rs2 (i : Z) :
  length rs1 = length rs2 -> row_at rs1 i = None -> row_at rs2 i = None.
Proof.
  unfold row_at. intros Hlen. rewrite <- Hlen.
  destruct (positional (length rs1) i) as [k |] eqn:Ek; [| reflexivity].
  intros Hnone. apply positional_lt in Ek.
  apply lookup_ge_None in Hnone. lia.
Qed.

Lemma take_rows_defined rs1 rs2 (idx : list Z) :
  length rs1 = length rs2 -> take_rows rs1 idx = None -> take_rows rs2 idx = None.
Proof.
  intros Hlen. induction idx as [| i idx IH]; cbn [take_rows]; [discriminate |].
  destruct (row_at rs1 i) as [r1 |] eqn:E1.
  - destruct (take_rows rs1 idx); [discriminate |]. intros _.
    rewrite (IH eq_refl). now destruct (row_at rs2 i).
  - intros _. now rewrite (row_at_defined rs1 rs2 i Hlen E1).
Qed.

(** Tables that agree on the indexed rows have the same slice. *)
Lemma take_rows_agree rs1 rs2 (idx : list Z) :
  (forall i, In i idx -> row_at rs1 i = row_at rs2 i) ->
  take_rows rs1 idx = take_rows rs2 idx.
Proof.
  induction idx as [| i idx IH]; intros Hagree; cbn [take_rows]; [reflexivity |].
  rewrite (Hagree i) by (now left). rewrite IH; [reflexivity |].
  intros j Hj. apply Hagree. now right.
Qed.

Lemma extend_extend s (fs gs : list (frame F)) :
  extend (extend s fs) gs = extend s (fs ++ gs).
Proof.
  unfold extend; cbn. now rewrite <- app_assoc.
Qed.

Lemma lookup_extend s fs (l : loc) f :
  heap s !! l = Some f -> heap (extend s fs) !! l = Some f.
Proof.
  intros Hl. cbn. now apply lookup_app_l_Some.
Qed.

Lemma iloc_rows_eval s (l : loc) f (idx : list Z) :
  heap s !! l = Some f ->
  iloc_rows l idx s =
  match take_rows (rows f) idx with
  | Some rs => (Ok (length (heap s)), extend s [Frame (columns f) rs])
  | None => (Raise (IndexError "positional indexers are out-of-bounds"), s)
  end.
Proof.
  intros Hl. unfold iloc_rows, bind, read. rewrite Hl.
  now destruct (take_rows (rows f) idx).
Qed.

(** Lines 131-136 in closed form: four new objects, in this order. *)
Lemma slice_fold_eval self train_index test_index s T Y :
  heap s !! self_X self = Some T ->
  heap s !! self_y self = Some Y ->
  let n := length (heap s) in
  slice_fold self train_index test_index s =
  match take_rows (rows T) train_index with
  | None => (Raise (IndexError "positional indexers are out-of-bounds"), s)
  | Some a =>
      match take_rows (rows T) test_index with
      | None => (Raise (IndexError "positional indexers are out-of-bounds"),
                 extend s [Frame (columns T) a])
      | Some b =>
          match take_rows (rows Y) train_index with
          | None => (Raise (IndexError "positional indexers are out-of-bounds"),
                     extend s [Frame (columns T) a; Frame (columns T) b])
          | Some c =>
              match take_rows (rows Y) test_index with
              | None => (Raise (IndexError "positional indexers are out-of-bounds"),
                         extend s [Frame (columns T) a; Frame (columns T) b;
                                   Frame (columns Y) c])
              | Some d => (Ok (n, n + 1, n + 2, n + 3),
                           extend s [Frame (columns T) a; Frame (columns T) b;
                                     Frame (columns Y) c; Frame (columns Y) d])
              end
          end
      end
  end.
Proof.
  intros HX Hy n. unfold slice_fold.
  unfold bind at 1. rewrite (iloc_rows_eval s _ T _ HX).
  destruct (take_rows (rows T) train_index) as [a |]; [| reflexivity].
  unfold bind at 1.
  rewrite (iloc_rows_eval _ _ T _ (lookup_extend s _ _ _ HX)).
  destruct (take_rows (rows T) test_index) as [b |]; [| reflexivity].
  rewrite extend_extend. unfold bind at 1.
  rewrite (iloc_rows_eval _ _ Y _ (lookup_extend s _ _ _ Hy)).
  destruct (take_rows (rows Y) train_index) as [c |]; [| reflexivity].
  rewrite extend_extend. unfold bind at 1.
  rewrite (iloc_rows_eval _ _ Y _ (lookup_extend s _ _ _ Hy)).
  destruct (take_rows (rows Y) test_index) as [d |]; [| reflexivity].
  rewrite extend_extend. cbn [ret app heap extend].
  rewrite !length_app. cbn [length].
  subst n. repeat f_equal; lia.
Qed.

End SliceFacts.

Section FitFacts.
Context {F : Type} `{Float64 F}.
Variable G : Globals.
Implicit Types s : State F.

Lemma global_columns_extend s fs :
  global_ok G s = true -> global_columns G (extend s fs) = global_columns G s.
Proof.
  unfold global_ok, global_columns. destruct (global_X G) as [gx |]; [| reflexivity].
  intros Hlt. apply Nat.ltb_lt in Hlt. cbn. now rewrite lookup_app_l.
Qed.

Lemma global_ok_extend s fs : global_ok G s = true -> global_ok G (extend s fs) = true.
Proof.
  unfold global_ok. destruct (global_X G) as [gx |]; [| reflexivity].
  intros Hlt. apply Nat.ltb_lt in Hlt. apply Nat.ltb_lt. cbn. rewrite length_app. lia.
Qed.

Lemma mask_eval self s :
  global_ok G s = true ->
  map_cols_to_scale_to_boolean G self s =
  match global_columns G s with
  | Some gc => (Ok (col_mask (self_cols_to_scale self) gc), s)
  | None => (Raise (NameError "X"), s)
  end.
Proof.
  unfold global_ok, global_columns, map_cols_to_scale_to_boolean.
  destruct (global_X G) as [gx |]; [| reflexivity].
  intros Hlt. apply Nat.ltb_lt in Hlt.
  destruct (lookup_lt_is_Some_2 _ _ Hlt) as [g Hg].
  unfold bind, read. rewrite Hg. reflexivity.
Qed.

(** Lines 137-141 update the training slice in place by [fit_on_frame] and
    touch nothing else. *)
Lemma fit_on_train_eval self (X_train : loc) s A :
  heap s !! X_train = Some A ->
  global_ok G s = true ->
  fit_on_train G self X_train s =
  match fit_on_frame (self_cols_to_scale self) (global_columns G s) A with
  | Ok fitted => (Ok (fst fitted), update s X_train (snd fitted))
  | Raise e => (Raise e, s)
  end.
Proof.
  intros HA Hok. unfold fit_on_train, fit_on_frame.
  unfold bind at 1. rewrite (mask_eval self s Hok).
  destruct (global_columns G s) as [gc |] eqn:Hgc; [| reflexivity].
  set (mask := col_mask _ gc).
  unfold bind at 1. unfold iloc_cols, bind at 1, read. rewrite HA.
  destruct (length mask =? length (columns A)) eqn:Hlen; cbn [negb ret]; [| reflexivity].
  unfold bind at 1, lift.
  destruct (scaler_fit_transform _) as [[sc vals] | e]; cbn [obind fst snd]; [| reflexivity].
  unfold bind at 1. rewrite (mask_eval self s Hok), Hgc. fold mask.
  unfold bind at 1. unfold iloc_cols_set, bind at 1, read. rewrite HA, Hlen. cbn [negb].
  destruct (negb _); reflexivity.
Qed.

(** What the fit exposes, as a function of the two training slices, the
    column names and whether the test slices exist. *)
Lemma observe_fit_eval self train_index test_index s T Y :
  heap s !! self_X self = Some T ->
  heap s !! self_y self = Some Y ->
  global_ok G s = true ->
  observe_fit (fit_stage G self train_index test_index s) =
  match take_rows (rows T) train_index, take_rows (rows T) test_index,
        take_rows (rows Y) train_index, take_rows (rows Y) test_index with
  | Some a, Some b, Some c, Some d =>
      match fit_on_frame (self_cols_to_scale self) (global_columns G s)
                         (Frame (columns T) a) with
      | Ok fitted => Ok (fst fitted, Some (snd fitted), Some (Frame (columns Y) c))
      | Raise e => Raise e
      end
  | _, _, _, _ => Raise (IndexError "positional indexers are out-of-bounds")
  end.
Proof.
  intros HX Hy Hok. unfold observe_fit.
  remember (fit_stage G self train_index test_index s) as r eqn:E.
  unfold fit_stage, bind at 1 in E.
  rewrite (slice_fold_eval self train_index test_index s T Y HX Hy) in E.
  destruct (take_rows (rows T) train_index) as [a |]; [| now subst r].
  destruct (take_rows (rows T) test_index) as [b |]; [| now subst r].
  destruct (take_rows (rows Y) train_index) as [c |]; [| now subst r].
  destruct (take_rows (rows Y) test_index) as [d |]; [| now subst r].
  cbn [fst snd] in E. unfold bind at 1 in E.
  rewrite (fit_on_train_eval self (length (heap s)) _ (Frame (columns T) a)) in E;
    [| now apply list_lookup_middle | now apply global_ok_extend].
  rewrite global_columns_extend in E by exact Hok.
  destruct (fit_on_frame _ _ _) as [[sc A'] | e]; [| now subst r].
  subst r. cbn [ret fst snd update extend heap].
  rewrite list_lookup_insert_eq by (rewrite length_app; cbn; lia).
  rewrite list_lookup_insert_ne by lia.
  rewrite lookup_app_r by lia.
  replace (length (heap s) + 2 - length (heap s)) with 2 by lia.
  reflexivity.
Qed.

Lemma fit_stage_locs self train_index test_index s T Y sc sl s1 :
  heap s !! self_X self = Some T ->
  heap s !! self_y self = Some Y ->
  fit_stage G self train_index test_index s = (Ok (sc, sl), s1) ->
  sl = (length (heap s), length (heap s) + 1, length (heap s) + 2, length (heap s) + 3).
Proof.
  intros HX Hy E. unfold fit_stage, bind at 1 in E.
  rewrite (slice_fold_eval self train_index test_index s T Y HX Hy) in E.
  destruct (take_rows (rows T) train_index) as [a |]; [| discriminate E].
  destruct (take_rows (rows T) test_index) as [b |]; [| discriminate E].
  destruct (take_rows (rows Y) train_index) as [c |]; [| discriminate E].
  destruct (take_rows (rows Y) test_index) as [d |]; [| discriminate E].
  unfold bind in E. destruct (fit_on_train G self _ _) as [[sc' | e] s']; [| discriminate E].
  cbn in E. now injection E as _ <- _.
Qed.

(** Lines 142-144 write the test slice and nothing else. *)
Lemma transform_test_only_writes self scaler (X_test : loc) s (l : loc) :
  l <> X_test ->
  heap (snd (transform_test G self scaler X_test s)) !! l = heap s !! l.
Proof.
  intros Hl.
  assert (Hmask : forall s0, snd (map_cols_to_scale_to_boolean G self s0) = s0).
  { intros s0. unfold map_cols_to_scale_to_boolean, bind, read.
    destruct (global_X G) as [gx |]; [| reflexivity].
    now destruct (heap s0 !! gx). }
  unfold transform_test. unfold bind at 1.
  destruct (map_cols_to_scale_to_boolean G self s) as [[mask | e] s1] eqn:E1;
    pose proof (Hmask s) as H1; rewrite E1 in H1; cbn in H1; subst s1; [| reflexivity].
  unfold bind at 1. unfold iloc_cols, bind at 1, read.
  destruct (heap s !! X_test) as [B |]; [| reflexivity].
  destruct (length mask =? length (columns B)); [| reflexivity].
  cbn [ret]. unfold bind at 1, lift.
  destruct (scaler_transform scaler _) as [scaled | e]; [| reflexivity].
  unfold bind at 1.
  destruct (map_cols_to_scale_to_boolean G self s) as [[mask' | e] s1] eqn:E2;
    pose proof (Hmask s) as H2; rewrite E2 in H2; cbn in H2; subst s1; [| reflexivity].
  unfold iloc_cols_set, bind, read.
  destruct (heap s !! X_test) as [B' |]; [| reflexivity].
  destruct (negb _); [reflexivity |]. destruct (negb _); [reflexivity |].
  cbn. apply list_lookup_insert_ne. congruence.
Qed.

(** The training part returned by the whole call is the one the fit left. *)
Lemma observe_train_fit self train_index test_index s T Y o :
  heap s !! self_X self = Some T ->
  heap s !! self_y self = Some Y ->
  observe_train (get_scaled_train_and_test_sets G self train_index test_index s) = Some o ->
  exists scaler,
    observe_fit (fit_stage G self train_index test_index s) = Ok (scaler, fst o, snd o).
Proof.
  intros HX Hy Ho. unfold observe_train in Ho.
  destruct (get_scaled_train_and_test_sets G self train_index test_index s)
    as [[sl' | e] s3] eqn:Eg; cbn [fst snd] in Ho; [| discriminate Ho].
  unfold get_scaled_train_and_test_sets, bind at 1 in Eg.
  destruct (fit_stage G self train_index test_index s) as [[[sc sl] | e] s1] eqn:E;
    [| discriminate Eg].
  pose proof (fit_stage_locs _ _ _ _ _ _ _ _ _ HX Hy E) as ->. cbn [fst snd] in Eg.
  pose proof (transform_test_only_writes self sc (length (heap s) + 1) s1) as Hw.
  unfold bind in Eg.
  destruct (transform_test G self sc (length (heap s) + 1) s1) as [[[] | e] s2];
    [| discriminate Eg].
  cbn [fst snd ret] in *. injection Eg as <- <-. injection Ho as <-.
  exists sc. unfold observe_fit. cbn [fst snd].
  rewrite !Hw by lia. reflexivity.
Qed.

Lemma global_after_fit s fs (k : nat) f :
  global_ok G s = true ->
  global_ok G (update (extend s fs) (length (heap s) + k) f) = true /\
  global_columns G (update (extend s fs) (length (heap s) + k) f) = global_columns G s.
Proof.
  unfold global_ok, global_columns. destruct (global_X G) as [gx |]; [| auto].
  intros Hlt. apply Nat.ltb_lt in Hlt. cbn. split.
  - apply Nat.ltb_lt. rewrite length_insert, length_app. lia.
  - rewrite list_lookup_insert_ne by lia. now rewrite lookup_app_l.
Qed.

(** Lines 142-144 update the test slice in place by [transform_on_frame]. *)
Lemma transform_test_eval self scaler (X_test : loc) s B :
  heap s !! X_test = Some B ->
  global_ok G s = true ->
  transform_test G self scaler X_test s =
  match transform_on_frame (self_cols_to_scale self) (global_columns G s) scaler B with
  | Ok B' => (Ok tt, update s X_test B')
  | Raise e => (Raise e, s)
  end.
Proof.
  intros HB Hok. unfold transform_test, transform_on_frame.
  unfold bind at 1. rewrite (mask_eval self s Hok).
  destruct (global_columns G s) as [gc |] eqn:Hgc; [| reflexivity].
  set (mask := col_mask _ gc).
  unfold bind at 1. unfold iloc_cols, bind at 1, read. rewrite HB.
  destruct (length mask =? length (columns B)) eqn:Hlen; cbn [negb ret]; [| reflexivity].
  unfold bind at 1, lift.
  destruct (scaler_transform scaler _) as [scaled | e]; cbn [obind]; [| reflexivity].
  unfold bind at 1. rewrite (mask_eval self s Hok), Hgc. fold mask.
  unfold iloc_cols_set, bind at 1, read. rewrite HB, Hlen. cbn [negb].
  destruct (negb _); reflexivity.
Qed.

(** A call that returns has allocated exactly the four slices, the training
    table updated by the fit and the test table by the transform. *)
Lemma get_scaled_ok self train_index test_index s T Y sl s' :
  heap s !! self_X self = Some T ->
  heap s !! self_y self = Some Y ->
  global_ok G s = true ->
  get_scaled_train_and_test_sets G self train_index test_index s = (Ok sl, s') ->
  exists a b c d scaler A' B',
    take_rows (rows T) train_index = Some a /\
    take_rows (rows T) test_index = Some b /\
    take_rows (rows Y) train_index = Some c /\
    take_rows (rows Y) test_index = Some d /\
    fit_on_frame (self_cols_to_scale self) (global_columns G s) (Frame (columns T) a)
    = Ok (scaler, A') /\
    transform_on_frame (self_cols_to_scale self) (global_columns G s) scaler
                       (Frame (columns T) b)
    = Ok B' /\
    sl = (length (heap s), length (heap s) + 1, length (heap s) + 2, length (heap s) + 3) /\
    heap s' = heap s ++ [A'; B'; Frame (columns Y) c; Frame (columns Y) d].
Proof.
  intros HX Hy Hok E.
  unfold get_scaled_train_and_test_sets, bind at 1 in E.
  unfold fit_stage, bind at 1 in E.
  rewrite (slice_fold_eval self train_index test_index s T Y HX Hy) in E.
  destruct (take_rows (rows T) train_index) as [a |]; [| discriminate E].
  destruct (take_rows (rows T) test_index) as [b |]; [| discriminate E].
  destruct (take_rows (rows Y) train_index) as [c |]; [| discriminate E].
  destruct (take_rows (rows Y) test_index) as [d |]; [| discriminate E].
  cbn [fst snd] in E. unfold bind at 1 in E.
  rewrite (fit_on_train_eval self (length (heap s)) _ (Frame (columns T) a)) in E;
    [| now apply list_lookup_middle | now apply global_ok_extend].
  rewrite global_columns_extend in E by exact Hok.
  destruct (fit_on_frame _ _ _) as [[scaler A'] | e] eqn:Efit; [| discriminate E].
  cbn [ret fst snd] in E. unfold bind at 1 in E.
  destruct (global_after_fit s [Frame (columns T) a; Frame (columns T) b;
                                Frame (columns Y) c; Frame (columns Y) d] 0 A' Hok)
    as [Hok' Hg'].
  rewrite Nat.add_0_r in Hok', Hg'.
  rewrite (transform_test_eval self scaler (length (heap s) + 1) _ (Frame (columns T) b))
    in E; [| | exact Hok'].
  2: { cbn [heap update extend]. rewrite list_lookup_insert_ne by lia.
       rewrite lookup_app_r by lia.
       now replace (length (heap s) + 1 - length (heap s)) with 1 by lia. }
  rewrite Hg' in E.
  destruct (transform_on_frame _ _ _ _) as [B' | e] eqn:Etr; [| discriminate E].
  cbn [ret] in E. injection E as <- <-.
  exists a, b, c, d, scaler, A', B'. do 4 (split; [reflexivity |]).
  split; [exact Efit |]. split; [exact Etr |]. split; [reflexivity |].
  cbn [heap update extend].
  rewrite !insert_app_r_alt by lia.
  replace (length (heap s) - length (heap s)) with 0 by lia.
  replace (length (heap s) + 1 - length (heap s)) with 1 by lia.
  reflexivity.
Qed.

Lemma fit_on_frame_ok to_scale gcols (A : frame F) scaler A' :
  fit_on_frame to_scale gcols A = Ok (scaler, A') ->
  exists gc va,
    gcols = Some gc /\
    scaler_fit (columns_where (col_mask to_scale gc) A) = Ok scaler /\
    scaler_transform scaler (columns_where (col_mask to_scale gc) A) = Ok va /\
    A' = with_columns (col_mask to_scale gc) A va.
Proof.
  unfold fit_on_frame, scaler_fit_transform. destruct gcols as [gc |]; [| discriminate].
  cbv zeta. destruct (negb _); [discriminate |].
  destruct (scaler_fit _) as [sc |] eqn:E1; [| discriminate]. cbn [obind].
  destruct (scaler_transform sc _) as [va |] eqn:E2; [| discriminate]. cbn [obind fst snd].
  destruct (negb _); [discriminate |]. intros [= <- <-]. exists gc, va.
  split; [reflexivity |]. split; [exact E1 |]. split; [exact E2 | reflexivity].
Qed.

Lemma transform_on_frame_ok to_scale gcols scaler (B B' : frame F) :
  transform_on_frame to_scale gcols scaler B = Ok B' ->
  exists gc vb,
    gcols = Some gc /\
    scaler_transform scaler (columns_where (col_mask to_scale gc) B) = Ok vb /\
    B' = with_columns (col_mask to_scale gc) B vb.
Proof.
  unfold transform_on_frame. destruct gcols as [gc |]; [| discriminate].
  cbv zeta. destruct (negb _); [discriminate |].
  destruct (scaler_transform scaler _) as [vb |] eqn:E1; [| discriminate]. cbn [obind].
  destruct (negb _); [discriminate |]. intros [= <-]. exists gc, vb.
  split; [reflexivity |]. split; [exact E1 | reflexivity].
Qed.

End FitFacts.

(** C1.  Two runs of the fold scaler on states whose feature tables have the
    same columns and the same number of rows and agree on every row of the
    training index, with the same label table and the same columns under
    the module-level [X]: the fit yields the same statistics (mean, variance
    and scale of every scaled column), the same scaled training table and
    the same training labels, or raises the same error; and when both calls
    return, the training table and labels they return are the same.  The
    rows outside the training index may differ arbitrarily. *)
Theorem fit_ignores_test_rows {F} `{Float64 F} (G : Globals) self train_index test_index
    (s1 s2 : State F) (T1 T2 Y : frame F) :
  heap s1 !! self_X self = Some T1 ->
  heap s2 !! self_X self = Some T2 ->
  heap s1 !! self_y self = Some Y ->
  heap s2 !! self_y self = Some Y ->
  columns T1 = columns T2 ->
  length (rows T1) = length (rows T2) ->
  (forall i, In i train_index -> row_at (rows T1) i = row_at (rows T2) i) ->
  global_ok G s1 = true ->
  global_ok G s2 = true ->
  global_columns G s1 = global_columns G s2 ->
  scaled_by_train_fit G self train_index test_index s1 T1 /\
  observe_fit (fit_stage G self train_index test_index s1)
  = observe_fit (fit_stage G self train_index test_index s2) /\
  forall o1 o2,
    observe_train (get_scaled_train_and_test_sets G self train_index test_index s1) = Some o1 ->
    observe_train (get_scaled_train_and_test_sets G self train_index test_index s2) = Some o2 ->
    o1 = o2.
Proof.
  intros HX1 HX2 Hy1 Hy2 Hcols Hrows Hagree Hok1 Hok2 Hg.
  split.
  { intros sl s' E.
    destruct (get_scaled_ok G _ _ _ _ _ _ _ _ HX1 Hy1 Hok1 E)
      as (a & b & c & d & scaler & A' & B' & Ea & Eb & _ & _ & Efit & Etr & -> & Hheap).
    destruct (fit_on_frame_ok _ _ _ _ _ Efit) as (gc & va & Hgc & Hsc & Hva & ->).
    destruct (transform_on_frame_ok _ _ _ _ _ Etr) as (gc' & vb & Hgc' & Hvb & ->).
    rewrite Hgc in Hgc'. injection Hgc' as <-.
    exists gc, a, b, scaler, va, vb. cbv zeta. cbn [fst snd].
    do 6 (split; [assumption |]). rewrite Hheap. split.
    - now apply list_lookup_middle.
    - rewrite lookup_app_r by lia.
      now replace (length (heap s1) + 1 - length (heap s1)) with 1 by lia. }
  assert (Hfit : observe_fit (fit_stage G self train_index test_index s1)
                 = observe_fit (fit_stage G self train_index test_index s2)).
  { rewrite (observe_fit_eval G self train_index test_index s1 T1 Y HX1 Hy1 Hok1).
    rewrite (observe_fit_eval G self train_index test_index s2 T2 Y HX2 Hy2 Hok2).
    rewrite <- (take_rows_agree _ _ _ Hagree), <- Hcols, <- Hg.
    destruct (take_rows (rows T1) train_index) as [a |]; [| reflexivity].
    destruct (take_rows (rows T1) test_index) as [b1 |] eqn:E1.
    - destruct (take_rows (rows T2) test_index) as [b2 |] eqn:E2; [reflexivity |].
      rewrite (take_rows_defined _ _ _ (eq_sym Hrows) E2) in E1. discriminate E1.
    - now rewrite (take_rows_defined _ _ _ Hrows E1). }
  split; [exact Hfit |].
  intros o1 o2 Ho1 Ho2.
  destruct (observe_train_fit G _ _ _ _ _ _ _ HX1 Hy1 Ho1) as [sc1 E1].
  destruct (observe_train_fit G _ _ _ _ _ _ _ HX2 Hy2 Ho2) as [sc2 E2].
  rewrite Hfit, E2 in E1. injection E1 as _ Ha Hb.
  destruct o1, o2; cbn in *. congruence.
Qed.

Lemma fit_ignores_test_rows_witness :
  let self := Demo.pipeline "xgb" true [] ["col_0"; "col_1"] in
  let G := Demo.script in
  let train_index := [0; 1]%Z in
  let test_index := [2; 3]%Z in
  heap Demo.init !! self_X self = Some Demo.table /\
  heap Demo.init_perturbed !! self_X self = Some Demo.table_perturbed /\
  heap Demo.init !! self_y self = Some Demo.labels /\
  heap Demo.init_perturbed !! self_y self = Some Demo.labels /\
  columns Demo.table = columns Demo.table_perturbed /\
  length (rows Demo.table) = length (rows Demo.table_perturbed) /\
  (forall i, In i train_index ->
             row_at (rows Demo.table) i = row_at (rows Demo.table_perturbed) i) /\
  global_ok G Demo.init = true /\
  global_ok G Demo.init_perturbed = true /\
  global_columns G Demo.init = global_columns G Demo.init_perturbed /\
  scaled_by_train_fit G self train_index test_index Demo.init Demo.table /\
  observe_fit (fit_stage G self train_index test_index Demo.init)
  = observe_fit (fit_stage G self train_index test_index Demo.init_perturbed) /\
  forall o1 o2,
    observe_train (get_scaled_train_and_test_sets G self train_index test_index Demo.init)
    = Some o1 ->
    observe_train (get_scaled_train_and_test_sets G self train_index test_index
                     Demo.init_perturbed)
    = Some o2 ->
    o1 = o2.
Proof.
  intros self G train_index test_index.
  assert (Hagree : forall i, In i train_index ->
                             row_at (rows Demo.table) i = row_at (rows Demo.table_perturbed) i).
  { intros i [<- | [<- | []]]; reflexivity. }
  do 6 (split; [reflexivity |]). split; [exact Hagree |]. do 3 (split; [reflexivity |]).
  apply (fit_ignores_test_rows G self train_index test_index Demo.init Demo.init_perturbed
           Demo.table Demo.table_perturbed Demo.labels); try reflexivity.
  exact Hagree.
Defined.

(** On the example tables the fit computes mean 2 and variance 1 for
    [col_0], mean 3 and variance 0 for [col_1], whatever the test rows. *)
Example fit_stage_example :
  observe_fit (fit_stage Demo.script (Demo.pipeline "xgb" true [] ["col_0"; "col_1"])
                 [0; 1]%Z [2; 3]%Z Demo.init_perturbed)
  = Ok ({| mean_ := [2; 3]%Q; var_ := [1; 0]%Q; scale_ := [1; 1]%Q |},
        Some (Frame ["col_0"; "col_1"] [[-1; 0]; [1; 0]]%Q),
        Some (Frame ["y"] [[0]; [1]]%Q)).
Proof. reflexivity. Qed.

(** The whole call on the example tables: both slices are scaled with the
    statistics of rows 0 and 1, the labels are sliced and left as they are. *)
Example get_scaled_example :
  let r := get_scaled_train_and_test_sets Demo.script
             (Demo.pipeline "xgb" true [] ["col_0"]) [0; 1]%Z [2; 3]%Z Demo.init in
  fst r = Ok (2, 3, 4, 5) /\
  heap (snd r) =
  [Demo.table; Demo.labels;
   Frame ["col_0"; "col_1"] [[-1; 3]; [1; 3]]%Q;
   Frame ["col_0"; "col_1"] [[3; 7]; [5; 7]]%Q;
   Frame ["y"] [[0]; [1]]%Q;
   Frame ["y"] [[0]; [1]]%Q].
Proof. split; reflexivity. Qed.

(** The end-to-end scenario of the specification, on the small table: a grid
    of two configurations gives two trial records. *)
Example grid_search_example :
  let r := search_for_params Demo.world Demo.script
             (Demo.pipeline "xgb" true
                [("max_depth", VList [VInt 2; VInt 4]); ("n_estimators", VList [VInt 10])]
                ["col_0"; "col_1"])
             "grid" 2 None Demo.init in
  fst r = Ok tt /\
  self_params (snd r) = [[("max_depth", VInt 2); ("n_estimators", VInt 10)];
                         [("max_depth", VInt 4); ("n_estimators", VInt 10)]] /\
  length (self_scores (snd r)) = 2.
Proof. repeat split; vm_compute; reflexivity. Qed.

(** * Further properties of the pipeline *)

(** ** Requests the driver rejects *)

(** X1.  A strategy name other than [random] and [grid] raises the
    [ValueError] of line 81, and random search without [n_iters] raises
    [KeyError]; in both cases nothing has been evaluated or recorded: the
    state is the one before the call. *)
Theorem search_for_params_rejects_bad_request {F} `{Float64 F} (W : World F) (G : Globals)
    self algo n_splits kwargs (s : State F) :
  algo <> "random" ->
  algo <> "grid" ->
  search_for_params W G self algo n_splits kwargs s
  = (Raise (ValueError "Unrecognizable searching_algo param. Currently available are: random, grid."), s) /\
  search_for_params W G self "random" n_splits None s = (Raise (KeyError "n_iters"), s).
Proof.
  intros Hr Hg. split; [| reflexivity].
  unfold search_for_params.
  apply String.eqb_neq in Hr, Hg. now rewrite Hr, Hg.
Qed.

Lemma search_for_params_rejects_bad_request_witness :
  "bogus" <> "random" /\ "bogus" <> "grid" /\
  search_for_params Demo.world Demo.script (Demo.pipeline "xgb" true [] ["col_0"])
                    "bogus" 2 (Some 3%Z) Demo.init
  = (Raise (ValueError "Unrecognizable searching_algo param. Currently available are: random, grid."), Demo.init) /\
  search_for_params Demo.world Demo.script (Demo.pipeline "xgb" true [] ["col_0"])
                    "random" 2 None Demo.init
  = (Raise (KeyError "n_iters"), Demo.init).
Proof.
  assert (H1 : "bogus" <> "random") by discriminate.
  assert (H2 : "bogus" <> "grid") by discriminate.
  split; [exact H1 |]. split; [exact H2 |].
  exact (search_for_params_rejects_bad_request Demo.world Demo.script
           (Demo.pipeline "xgb" true [] ["col_0"]) "bogus" 2 (Some 3%Z) Demo.init H1 H2).
Defined.

(** ** Sampling and the generator *)

Section SamplingFacts.
Context {F : Type}.
Variable W : World F.

Lemma random_choice_spec (l : list pyval) (s : State F) :
  match random_choice W l s with
  | (Ok v, s1) =>
      In v l /\ heap s1 = heap s /\ self_params s1 = self_params s /\
      self_scores s1 = self_scores s /\ rng_pos s1 = S (rng_pos s)
  | (Raise e, s1) => e = IndexError "Cannot choose from an empty sequence" /\ s1 = s
  end.
Proof.
  unfold random_choice. destruct l as [| x l]; [auto |].
  split; [| cbn; auto].
  apply nth_In. apply Nat.mod_upper_bound. discriminate.
Qed.

(** A returned configuration resolves the space and cost one draw per list
    entry; a raise is the [IndexError] of an empty list.  The store and the
    trial log are not touched either way. *)
Lemma get_random_params_spec (space : dict) :
  forall s : State F,
    match get_random_params W space s with
    | (Ok cfg, s1) =>
        resolves space cfg /\
        heap s1 = heap s /\ self_params s1 = self_params s /\
        self_scores s1 = self_scores s /\
        rng_pos s1 = rng_pos s + count_lists space
    | (Raise e, s1) =>
        e = IndexError "Cannot choose from an empty sequence" /\
        heap s1 = heap s /\ self_params s1 = self_params s /\
        self_scores s1 = self_scores s
    end.
Proof.
  induction space as [| [k v] space IH]; intros s; cbn [get_random_params].
  - cbn. split; [constructor | auto].
  - assert (Hv : match (match v with VList l => random_choice W l | _ => ret v end) s with
                 | (Ok v', s1) =>
                     match v with VList l => In v' l | _ => v' = v end /\
                     heap s1 = heap s /\ self_params s1 = self_params s /\
                     self_scores s1 = self_scores s /\
                     rng_pos s1 = rng_pos s + (match v with VList _ => 1 | _ => 0 end)
                 | (Raise e, s1) =>
                     e = IndexError "Cannot choose from an empty sequence" /\ s1 = s
                 end).
    { destruct v as [| | | | | l |]; try (cbn; repeat split; auto; lia).
      pose proof (random_choice_spec l s) as Hc.
      destruct (random_choice W l s) as [[v' | e] s1]; [| exact Hc].
      destruct Hc as (H1 & H2 & H3 & H4 & H5). repeat split; auto. lia. }
    unfold bind at 1.
    destruct ((match v with VList l => random_choice W l | _ => ret v end) s)
      as [[v' | e] s1].
    + destruct Hv as (Hin & Hh & Hp & Hc & Hr). specialize (IH s1).
      unfold bind. destruct (get_random_params W space s1) as [[rest | e] s2];
        cbn [ret].
      * destruct IH as (Ires & Ih & Ip & Ic & Irng).
        split; [| split; [congruence | split; [congruence | split; [congruence |]]]].
        -- constructor; [| exact Ires].
           split; [reflexivity |]. cbn [snd]. destruct v; exact Hin.
        -- rewrite Irng, Hr. unfold count_lists. cbn [List.filter snd].
           destruct v; cbn [length]; lia.
      * destruct IH as (Ie & Ih & Ip & Ic).
        split; [exact Ie | split; [congruence | split; congruence]].
    + destruct Hv as [-> ->]. auto.
Qed.

End SamplingFacts.

(** X2.  Sampling a configuration consumes one draw of the generator per
    list-valued entry of the space and changes nothing else: the store and
    the recorded params and scores are as before.  The only error it raises
    is the [IndexError] of [random.choice] on an empty list. *)
Theorem get_random_params_consumes_draws {F} (W : World F) (space : dict) (s : State F) :
  let r := get_random_params W space s in
  heap (snd r) = heap s /\
  self_params (snd r) = self_params s /\
  self_scores (snd r) = self_scores s /\
  match fst r with
  | Ok cfg => rng_pos (snd r) = rng_pos s + count_lists space
  | Raise e => e = IndexError "Cannot choose from an empty sequence"
  end.
Proof.
  cbv zeta. pose proof (get_random_params_spec W space s) as Hs.
  destruct (get_random_params W space s) as [[cfg | e] s1]; cbn [fst snd].
  - destruct Hs as (_ & Hh & Hp & Hc & Hr). auto.
  - destruct Hs as (He & Hh & Hp & Hc). auto.
Qed.

(** ** The trial log *)

Section TrialLog.
Context {F : Type} `{Float64 F}.
Variable W : World F.
Variable G : Globals.
Variables (n : nat) (h0 : list (frame F)).

(** A grid run appends: [k] configurations of the grid in order and their
    scores, the last of them missing when the run raised. *)
Lemma grid_loop_log self n_splits rp (grid : list dict) :
  forall ps sc s,
    Inv n h0 ps sc rp s ->
    let r := for_each grid (fun it => append_params_and_calculate_scores W G self it n_splits) s in
    exists k new,
      k <= length grid /\
      Inv n h0 (ps ++ take k grid) (sc ++ new) rp (snd r) /\
      match fst r with
      | Ok _ => k = length grid /\ length new = length grid
      | Raise _ => S (length new) = k
      end.
Proof.
  induction grid as [| it grid IH]; intros ps sc s Hs; cbn [for_each].
  - exists 0, []. cbn. rewrite !app_nil_r. split; [lia |]. split; [exact Hs |]. split; lia.
  - pose proof (append_params_spec W G n h0 self it n_splits ps sc rp s Hs) as Hstep.
    cbv zeta. unfold bind.
    destruct (append_params_and_calculate_scores W G self it n_splits s) as [[[] | e] s1];
      cbn in Hstep |- *.
    + destruct Hstep as [score H1].
      destruct (IH _ _ _ H1) as (k & new & Hk & Hinv & Hres).
      exists (S k), (score :: new). cbn [take length]. split; [lia |]. split.
      * rewrite <- !app_assoc in Hinv. exact Hinv.
      * destruct (fst (for_each grid _ s1)); [destruct Hres as [-> Hl]; split; lia | lia].
    + exists 1, []. cbn [take length]. rewrite take_0, app_nil_r.
      split; [lia |]. split; [exact Hstep |]. reflexivity.
Qed.

(** A random run appends the sampled configurations and their scores; it
    raises either while sampling, with every configuration scored, or in a
    trial, with the last configuration unscored. *)
Lemma random_loop_log self n_splits (iters : nat) :
  forall ps sc rp s,
    Inv n h0 ps sc rp s ->
    match repeat_m iters
            (bind (get_random_params W (self_param_space self))
                  (fun it => append_params_and_calculate_scores W G self it n_splits)) s with
    | (o, s') =>
        exists cfgs new rp',
          Inv n h0 (ps ++ cfgs) (sc ++ new) rp' s' /\
          Forall (resolves (self_param_space self)) cfgs /\
          match o with
          | Ok _ => length cfgs = iters /\ length new = iters
          | Raise _ =>
              length cfgs <= iters /\
              (length cfgs = length new \/ length cfgs = S (length new))
          end
    end.
Proof.
  induction iters as [| iters IH]; intros ps sc rp s Hs; cbn [repeat_m].
  - exists [], [], rp. cbn. rewrite !app_nil_r. auto.
  - pose proof (get_random_params_spec W (self_param_space self) s) as Hg.
    unfold bind at 1. unfold bind at 1.
    destruct Hs as (Hn & Ht & Hp & Hc & Hr).
    destruct (get_random_params W (self_param_space self) s) as [[it | e] s1].
    + destruct Hg as (Hres & Hh & Hp1 & Hc1 & Hr1).
      assert (H1 : Inv n h0 ps sc (rng_pos s1) s1).
      { unfold Inv. rewrite Hh, Hp1, Hc1. auto. }
      pose proof (append_params_spec W G n h0 self it n_splits ps sc _ s1 H1) as Hstep.
      destruct (append_params_and_calculate_scores W G self it n_splits s1)
        as [[[] | e] s2]; cbn [fst snd] in Hstep.
      * destruct Hstep as [score H2]. specialize (IH _ _ _ _ H2).
        destruct (repeat_m iters _ s2) as [o s3].
        destruct IH as (cfgs & new & rp' & Hinv & Hall & Hend).
        exists (it :: cfgs), (score :: new), rp'. split.
        { rewrite <- !app_assoc in Hinv. exact Hinv. }
        split; [now constructor |]. cbn [length].
        destruct o; [destruct Hend; split; lia |].
        destruct Hend as [Hle Hgap]. split; [lia |]. destruct Hgap; [left | right]; lia.
      * exists [it], [], (rng_pos s1). rewrite app_nil_r. split; [exact Hstep |].
        split; [repeat constructor; exact Hres |]. cbn. split; [lia | now right].
    + destruct Hg as (_ & Hh & Hp1 & Hc1).
      exists [], [], (rng_pos s1). cbn. rewrite !app_nil_r. split.
      { unfold Inv. rewrite Hh, Hp1, Hc1. auto. }
      split; [constructor |]. split; [lia | now left].
Qed.

End TrialLog.

(** X3.  A random search that runs to completion has appended exactly
    [n_iters] configurations (none when [n_iters] is not positive) and one
    score for each, after the records that were there; every appended
    configuration resolves the parameter space entry by entry. *)
Theorem random_search_records_n_trials {F} `{Float64 F} (W : World F) (G : Globals)
    self n_splits n_iters (s s' : State F) :
  optimize_hypers_using_random_search W G self n_splits n_iters s = (Ok tt, s') ->
  exists cfgs new,
    self_params s' = self_params s ++ cfgs /\
    self_scores s' = self_scores s ++ new /\
    length cfgs = Z.to_nat n_iters /\
    length new = Z.to_nat n_iters /\
    Forall (resolves (self_param_space self)) cfgs.
Proof.
  intros Hrun. unfold optimize_hypers_using_random_search in Hrun.
  pose proof (random_loop_log W G 0 [] self n_splits (Z.to_nat n_iters) _ _ _ s
                (Inv_trivial s)) as Hlog.
  rewrite Hrun in Hlog.
  destruct Hlog as (cfgs & new & rp' & (_ & _ & Hp & Hc & _) & Hall & H1 & H2).
  exists cfgs, new. auto.
Qed.

Lemma random_search_records_n_trials_witness :
  let self := Demo.pipeline "xgb" true
                [("max_depth", VList [VInt 2; VInt 4]); ("booster", VStr "gbtree")]
                ["col_0"; "col_1"] in
  let s' := snd (optimize_hypers_using_random_search Demo.world Demo.script self 2 3 Demo.init) in
  optimize_hypers_using_random_search Demo.world Demo.script self 2 3 Demo.init = (Ok tt, s') /\
  exists cfgs new,
    self_params s' = self_params Demo.init ++ cfgs /\
    self_scores s' = self_scores Demo.init ++ new /\
    length cfgs = Z.to_nat 3 /\
    length new = Z.to_nat 3 /\
    Forall (resolves (self_param_space self)) cfgs.
Proof.
  intros self s'.
  assert (Hrun : optimize_hypers_using_random_search Demo.world Demo.script self 2 3 Demo.init
                 = (Ok tt, s')) by (vm_compute; reflexivity).
  split; [exact Hrun |].
  exact (random_search_records_n_trials Demo.world Demo.script self 2 3 Demo.init s' Hrun).
Defined.

(** X4.  The log is append-only.  Whatever the strategy and whether the run
    returns or raises, the recorded params and scores after the run are
    those before it followed by new ones, and the older objects of the store
    are untouched; when the run returns there is one new score per new
    configuration, when it raises the new configurations are as many as the
    new scores or one more. *)
Theorem search_log_is_append_only {F} `{Float64 F} (W : World F) (G : Globals)
    self algo n_splits kwargs (s : State F) :
  let r := search_for_params W G self algo n_splits kwargs s in
  exists cfgs new,
    self_params (snd r) = self_params s ++ cfgs /\
    self_scores (snd r) = self_scores s ++ new /\
    match fst r with
    | Ok _ => length cfgs = length new
    | Raise _ => length cfgs = length new \/ length cfgs = S (length new)
    end.
Proof.
  cbv zeta. unfold search_for_params.
  assert (Hnone : forall e, exists cfgs new : list _,
             self_params (snd (raise (A := unit) e s)) = self_params s ++ cfgs /\
             self_scores (snd (raise (A := unit) e s)) = self_scores s ++ new /\
             match fst (raise (A := unit) e s) with
             | Ok _ => length cfgs = length new
             | Raise _ => length cfgs = length new \/ length cfgs = S (length new)
             end).
  { intros e. exists [], []. cbn. rewrite !app_nil_r. auto. }
  destruct (String.eqb algo "random").
  - destruct kwargs as [n_iters |]; [| apply Hnone].
    unfold optimize_hypers_using_random_search.
    pose proof (random_loop_log W G 0 [] self n_splits (Z.to_nat n_iters) _ _ _ s
                  (Inv_trivial s)) as Hlog.
    destruct (repeat_m _ _ s) as [o s1].
    destruct Hlog as (cfgs & new & rp' & (_ & _ & Hp & Hc & _) & _ & Hend).
    exists cfgs, new. split; [exact Hp |]. split; [exact Hc |]. cbn [fst].
    destruct o; [destruct Hend; lia | apply Hend].
  - destruct (String.eqb algo "grid"); [| apply Hnone].
    unfold optimize_hypers_using_grid_search, bind at 1 2 3, lift.
    destruct (ParameterGrid (self_param_space self)) as [grid | e].
    + destruct (grid_loop_log W G 0 [] self n_splits (rng_pos s) grid _ _ s (Inv_trivial s))
        as (k & new & Hk & (_ & _ & Hp & Hc & _) & Hend).
      exists (take k grid), new. split; [exact Hp |]. split; [exact Hc |].
      rewrite length_take.
      destruct (fst (for_each grid _ s)); [destruct Hend; lia | right; lia].
    + exists [], []. cbn. rewrite !app_nil_r. auto.
Qed.

(** X5.  A grid search on an accepted space that raises has stopped at its
    first failing trial: the [k] configurations tried so far, the first [k]
    of the grid in order, are in the recorded params, the first [k - 1] of
    them have their scores, and the rest of the grid was never tried. *)
Theorem grid_search_stops_at_first_failure {F} `{Float64 F} (W : World F) (G : Globals)
    self n_splits (s s' : State F) e :
  forallb (fun kv => grid_entry (snd kv)) (self_param_space self) = true ->
  optimize_hypers_using_grid_search W G self n_splits s = (Raise e, s') ->
  exists k new,
    1 <= k <= length (ParameterGrid_iter (self_param_space self)) /\
    self_params s' = self_params s ++ take k (ParameterGrid_iter (self_param_space self)) /\
    self_scores s' = self_scores s ++ new /\
    S (length new) = k /\
    take (length (heap s)) (heap s') = heap s.
Proof.
  intros Hsp Hrun.
  unfold optimize_hypers_using_grid_search, bind at 1, lift in Hrun.
  rewrite (ParameterGrid_accepts _ Hsp) in Hrun.
  destruct (grid_loop_log W G (length (heap s)) (heap s) self n_splits (rng_pos s)
              (ParameterGrid_iter (self_param_space self)) _ _ s (Inv_initial s))
    as (k & new & Hk & (_ & Ht & Hp & Hc & _) & Hend).
  rewrite Hrun in Ht, Hp, Hc, Hend. cbn [fst snd] in Ht, Hp, Hc, Hend.
  exists k, new. repeat split; auto; lia.
Qed.

Lemma grid_search_stops_at_first_failure_witness :
  let self := Demo.pipeline "knn" true
                [("n_neighbors", VList [VInt 3; VInt 0; VInt 5])] ["col_0"; "col_1"] in
  let r := optimize_hypers_using_grid_search Demo2.world_picky Demo.script self 2 Demo.init in
  forallb (fun kv => grid_entry (snd kv)) (self_param_space self) = true /\
  r = (Raise (ValueError "Expected n_neighbors > 0"), snd r) /\
  exists k new,
    1 <= k <= length (ParameterGrid_iter (self_param_space self)) /\
    self_params (snd r)
    = self_params Demo.init ++ take k (ParameterGrid_iter (self_param_space self)) /\
    self_scores (snd r) = self_scores Demo.init ++ new /\
    S (length new) = k /\
    take (length (heap Demo.init)) (heap (snd r)) = heap Demo.init.
Proof.
  intros self r.
  assert (H1 : forallb (fun kv => grid_entry (snd kv)) (self_param_space self) = true)
    by reflexivity.
  assert (H2 : r = (Raise (ValueError "Expected n_neighbors > 0"), snd r))
    by (vm_compute; reflexivity).
  split; [exact H1 |]. split; [exact H2 |].
  exact (grid_search_stops_at_first_failure Demo2.world_picky Demo.script self 2 Demo.init
           (snd r) _ H1 H2).
Defined.

(** ** Cross-validation of one configuration *)

Section CrossValidationFacts.
Context {F : Type} `{Float64 F}.
Variable W : World F.
Variable G : Globals.


Lemma create_splits_kf_fails self n_splits it (s : State F) fX fy e :
  heap s !! self_X self = Some fX ->
  heap s !! self_y self = Some fy ->
  kf_split W (self_stratify self) n_splits fX fy = Raise e ->
  create_splits_and_calc_scores W G self n_splits it s = (Raise e, s).
Proof.
  intros HX Hy Hkf. unfold create_splits_and_calc_scores, bind, read, lift.
  now rewrite HX, Hy, Hkf.
Qed.

(** A returning trial: its configuration and the score of its own
    cross-validation are appended, in this order. *)
Lemma append_params_ok self it n_splits (s s' : State F) :
  append_params_and_calculate_scores W G self it n_splits s = (Ok tt, s') ->
  exists score,
    fst (create_splits_and_calc_scores W G self n_splits it (snd (params_append it s)))
    = Ok score /\
    self_params s' = self_params s ++ [it] /\
    self_scores s' = self_scores s ++ [score].
Proof.
  intros E. unfold append_params_and_calculate_scores, bind at 1 in E. cbn [params_append] in E.
  set (s1 := {| heap := heap s; self_params := self_params s ++ [it];
                self_scores := self_scores s; rng_pos := rng_pos s |}) in *.
  destruct (keeps_create_splits W G _ _ _ _ _ self n_splits it s1 (Inv_initial s1))
    as [(_ & _ & Hp & Hc & _) _].
  unfold bind in E. cbn [params_append snd].  fold s1.
  destruct (create_splits_and_calc_scores W G self n_splits it s1) as [[score | e] s2];
    [| discriminate E].
  cbn [fst snd] in *. injection E as <-. exists score. cbn. rewrite Hp, Hc. auto.
Qed.

End CrossValidationFacts.

(** X6.  An error of the fold partitioning reaches the caller of a grid
    search as it is: the search raises that error in its first trial, having
    appended the first configuration of the grid to the recorded params and
    nothing else. *)
Theorem fold_partition_error_reaches_caller {F} `{Float64 F} (W : World F) (G : Globals)
    self n_splits kwargs (s : State F) fX fy e :
  heap s !! self_X self = Some fX ->
  heap s !! self_y self = Some fy ->
  kf_split W (self_stratify self) n_splits fX fy = Raise e ->
  forallb (fun kv => grid_entry (snd kv)) (self_param_space self) = true ->
  exists it rest,
    ParameterGrid_iter (self_param_space self) = it :: rest /\
    search_for_params W G self "grid" n_splits kwargs s
    = (Raise e, {| heap := heap s; self_params := self_params s ++ [it];
                   self_scores := self_scores s; rng_pos := rng_pos s |}).
Proof.
  intros HX Hy Hkf Hsp.
  assert (Hne : ParameterGrid_iter (self_param_space self) <> []).
  { intros Hnil. apply (f_equal (@length _)) in Hnil.
    rewrite ParameterGrid_iter_length in Hnil. cbn [length] in Hnil.
    revert Hnil Hsp. generalize (self_param_space self) as d.
    induction d as [| [k v] d IH]; cbn [map list_prod fold_right forallb]; [discriminate |].
    intros Hz Hsp. apply andb_true_iff in Hsp as [Hv Hsp]. cbn [snd] in *.
    apply Nat.eq_mul_0 in Hz as [Hz | Hz]; [| now apply IH].
    destruct v as [| | | | | [| x l] | [| x l]]; discriminate. }
  destruct (ParameterGrid_iter (self_param_space self)) as [| it rest] eqn:Egrid; [congruence |].
  exists it, rest. split; [reflexivity |].
  unfold search_for_params. cbn [String.eqb Ascii.eqb Bool.eqb].
  unfold optimize_hypers_using_grid_search, bind at 1, lift.
  rewrite (ParameterGrid_accepts _ Hsp), Egrid. cbn [for_each].
  unfold bind at 1. unfold append_params_and_calculate_scores, bind at 1. cbn [params_append].
  set (s1 := {| heap := heap s; self_params := self_params s ++ [it];
                self_scores := self_scores s; rng_pos := rng_pos s |}).
  unfold bind at 1.
  rewrite (create_splits_kf_fails W G self n_splits it s1 fX fy e HX Hy Hkf).
  reflexivity.
Qed.

Lemma fold_partition_error_reaches_caller_witness :
  let self := Demo.pipeline "xgb" true [("max_depth", VList [VInt 2; VInt 4])] ["col_0"] in
  let e := ValueError "Cannot have number of splits greater than the number of samples" in
  heap Demo.init !! self_X self = Some Demo.table /\
  heap Demo.init !! self_y self = Some Demo.labels /\
  kf_split Demo.world (self_stratify self) 7 Demo.table Demo.labels = Raise e /\
  forallb (fun kv => grid_entry (snd kv)) (self_param_space self) = true /\
  exists it rest,
    ParameterGrid_iter (self_param_space self) = it :: rest /\
    search_for_params Demo.world Demo.script self "grid" 7 None Demo.init
    = (Raise e, {| heap := heap Demo.init; self_params := self_params Demo.init ++ [it];
                   self_scores := self_scores Demo.init; rng_pos := rng_pos Demo.init |}).
Proof.
  intros self e. do 4 (split; [reflexivity |]).
  apply (fold_partition_error_reaches_caller Demo.world Demo.script self 7 None Demo.init
           Demo.table Demo.labels e); reflexivity.
Defined.



(** ** More on the model resolver *)

(** X8.  A model tag other than [xgb], [lr], [knn], [cat] and [lgb] raises
    the [ValueError] of line 185 whatever the mode and the configuration;
    the estimator constructors are not consulted. *)
Theorem determine_model_unsupported_tag {F} (W : World F) self params :
  existsb (String.eqb (self_model self)) ["xgb"; "lr"; "knn"; "cat"; "lgb"] = false ->
  determine_model W self params
  = Raise (ValueError "this model is currently not supported. try any of: xgb, lr, knn, cat, lgb").
Proof.
  intros Htag. cbn [existsb] in Htag.
  repeat (apply orb_false_iff in Htag as [? Htag]).
  unfold determine_model.
  repeat match goal with
         | E : String.eqb _ _ = false |- _ => rewrite E; clear E
         end.
  reflexivity.
Qed.

Lemma determine_model_unsupported_tag_witness :
  existsb (String.eqb (self_model (Demo.pipeline "svm" true [] [])))
          ["xgb"; "lr"; "knn"; "cat"; "lgb"] = false /\
  determine_model Demo.world (Demo.pipeline "svm" true [] []) [("C", VInt 1)]
  = Raise (ValueError "this model is currently not supported. try any of: xgb, lr, knn, cat, lgb").
Proof.
  split; [reflexivity |].
  apply (determine_model_unsupported_tag Demo.world (Demo.pipeline "svm" true [] [])).
  reflexivity.
Defined.

(** X9.  For the tags [knn], [cat] and [lgb] the resolver returns an
    estimator whose keyword arguments are the configuration as it is and
    which is a classifier exactly in classification mode; when it raises,
    the error is the one the estimator's constructor gave, unchanged. *)
Theorem determine_model_forwards_configuration {F} (W : World F) self params :
  existsb (String.eqb (self_model self)) ["knn"; "cat"; "lgb"] = true ->
  match determine_model W self params with
  | Ok est =>
      options est = params /\
      is_classifier (family est) = self_classification self /\
      init_check W (family est) params = None
  | Raise e => exists fam, init_check W fam params = Some e
  end.
Proof.
  intros Htag. unfold determine_model, construct.
  destruct (String.eqb (self_model self) "xgb") eqn:Exgb.
  { apply String.eqb_eq in Exgb. rewrite Exgb in Htag. discriminate Htag. }
  destruct (String.eqb (self_model self) "lr") eqn:Elr.
  { apply String.eqb_eq in Elr. rewrite Elr in Htag. discriminate Htag. }
  cbn [existsb] in Htag. rewrite orb_false_r in Htag.
  destruct (String.eqb (self_model self) "knn");
    [| destruct (String.eqb (self_model self) "cat");
       [| destruct (String.eqb (self_model self) "lgb"); [| discriminate Htag]]];
    destruct (self_classification self);
    match goal with
    | |- context [init_check W ?fam params] =>
        destruct (init_check W fam params) as [e |] eqn:Einit; cbn; eauto
    end.
Qed.

Lemma determine_model_forwards_configuration_witness :
  existsb (String.eqb (self_model (Demo.pipeline "cat" false [] []))) ["knn"; "cat"; "lgb"]
  = true /\
  match determine_model Demo2.world_strict (Demo.pipeline "cat" false [] [])
                        [("depth", VInt 6)] with
  | Ok est =>
      options est = [("depth", VInt 6)] /\
      is_classifier (family est) = self_classification (Demo.pipeline "cat" false [] []) /\
      init_check Demo2.world_strict (family est) [("depth", VInt 6)] = None
  | Raise e => exists fam, init_check Demo2.world_strict fam [("depth", VInt 6)] = Some e
  end.
Proof.
  split; [reflexivity |].
  apply (determine_model_forwards_configuration Demo2.world_strict
           (Demo.pipeline "cat" false [] []) [("depth", VInt 6)]).
  reflexivity.
Defined.

(** X10.  For the tag [xgb] the resolver passes [objective] and [verbosity]
    in front of the configuration, the objective following the mode, and the
    estimator is a classifier exactly in classification mode; a
    configuration that itself holds one of these two keys raises a
    [TypeError] in either mode, before the constructor is called. *)
Theorem determine_model_xgb_keywords {F} (W : World F) self params :
  self_model self = "xgb" ->
  let fixed := [("objective",
                 VStr (if self_classification self
                       then "binary:logistic" else "reg:squarederror"));
                ("verbosity", VInt 0)] in
  if existsb (fun k => existsb (String.eqb k) ["objective"; "verbosity"]) (keys params)
  then determine_model W self params
       = Raise (TypeError "got multiple values for keyword argument")
  else
    match determine_model W self params with
    | Ok est =>
        options est = fixed ++ params /\
        is_classifier (family est) = self_classification self
    | Raise e => exists fam, init_check W fam (fixed ++ params) = Some e
    end.
Proof.
  intros Htag. cbv zeta. unfold determine_model, call_kwargs, construct.
  rewrite Htag. cbn [String.eqb Ascii.eqb Bool.eqb].
  destruct (self_classification self); cbn [keys map fst];
    destruct (existsb _ (keys params)); cbn [obind]; try reflexivity;
    match goal with
    | |- context [init_check W ?fam ?kw] =>
        destruct (init_check W fam kw) as [e |] eqn:Einit; cbn; eauto
    end.
Qed.

Lemma determine_model_xgb_keywords_witness :
  let self := Demo.pipeline "xgb" false [] [] in
  let params := [("max_depth", VInt 4); ("objective", VStr "reg:absoluteerror")] in
  self_model self = "xgb" /\
  determine_model Demo.world self params
  = Raise (TypeError "got multiple values for keyword argument").
Proof.
  intros self params. split; [reflexivity |].
  exact (determine_model_xgb_keywords Demo.world self params eq_refl).
Defined.

(** ** What a failed trial does to later records *)

(** X11.  When a trial raises and the caller goes on with another trial that
    returns, the score of the later trial is stored at the position of the
    failed configuration: params and scores are paired off by one.  On a
    pipeline that had no records, [get_best_params] then returns the
    configuration that failed, with the score of the one that did not. *)
Theorem failed_trial_shifts_later_score {F} `{Float64 F} (W : World F) (G : Globals)
    self bad good n_splits (s s1 s2 : State F) e :
  length (self_params s) = length (self_scores s) ->
  append_params_and_calculate_scores W G self bad n_splits s = (Raise e, s1) ->
  append_params_and_calculate_scores W G self good n_splits s1 = (Ok tt, s2) ->
  exists score,
    fst (create_splits_and_calc_scores W G self n_splits good (snd (params_append good s1)))
    = Ok score /\
    self_params s2 !! length (self_scores s) = Some bad /\
    self_scores s2 !! length (self_scores s) = Some score /\
    self_params s2 !! S (length (self_scores s)) = Some good /\
    (self_scores s = [] ->
     forall v, get_metric_from_string score (self_metric self) = Ok v ->
               get_best_params self s2 = (Ok (bad, v), s2)).
Proof.
  intros Hlen Ebad Egood.
  destruct (failed_trial_keeps_configuration W G _ _ _ _ _ _ Ebad) as [Hp1 Hc1].
  destruct (append_params_ok W G _ _ _ _ _ Egood) as (score & Hscore & Hp2 & Hc2).
  rewrite Hp1 in Hp2. rewrite Hc1 in Hc2.
  exists score. split; [exact Hscore |].
  split. { rewrite Hp2, <- app_assoc. now apply list_lookup_middle. }
  split. { rewrite Hc2. now apply list_lookup_middle. }
  split. { rewrite Hp2, <- Hlen, lookup_app_r by (rewrite length_app; cbn; lia).
           rewrite length_app. cbn [length].
           now replace (S (length (self_params s)) - (length (self_params s) + 1)) with 0 by lia. }
  intros Hnil v Hv. rewrite Hnil in Hlen, Hc2. cbn in Hc2.
  destruct (self_params s); [| discriminate Hlen]. cbn in Hp2.
  unfold get_best_params, bind, get_state, lift. rewrite Hc2, Hp2. cbn [omapM obind].
  rewrite Hv. reflexivity.
Qed.

Lemma failed_trial_shifts_later_score_witness :
  let self := Demo.pipeline "knn" true [] ["col_0"; "col_1"] in
  let bad := [("n_neighbors", VInt 0)] in
  let good := [("n_neighbors", VInt 3)] in
  let s1 := snd (append_params_and_calculate_scores Demo2.world_picky Demo.script self bad 2
                   Demo.init) in
  let s2 := snd (append_params_and_calculate_scores Demo2.world_picky Demo.script self good 2
                   s1) in
  length (self_params Demo.init) = length (self_scores Demo.init) /\
  append_params_and_calculate_scores Demo2.world_picky Demo.script self bad 2 Demo.init
  = (Raise (ValueError "Expected n_neighbors > 0"), s1) /\
  append_params_and_calculate_scores Demo2.world_picky Demo.script self good 2 s1
  = (Ok tt, s2) /\
  get_best_params self s2 = (Ok (bad, MNum (1 # 3)), s2).
Proof.
  intros self bad good s1 s2.
  assert (H0 : length (self_params Demo.init) = length (self_scores Demo.init)) by reflexivity.
  assert (H1 : append_params_and_calculate_scores Demo2.world_picky Demo.script self bad 2
                 Demo.init = (Raise (ValueError "Expected n_neighbors > 0"), s1))
    by (vm_compute; reflexivity).
  assert (H2 : append_params_and_calculate_scores Demo2.world_picky Demo.script self good 2 s1
               = (Ok tt, s2)) by (vm_compute; reflexivity).
  split; [exact H0 |]. split; [exact H1 |]. split; [exact H2 |].
  destruct (failed_trial_shifts_later_score Demo2.world_picky Demo.script self bad good 2
              Demo.init s1 s2 _ H0 H1 H2) as (score & Hscore & _ & _ & _ & Hbest).
  apply (Hbest eq_refl).
  assert (Es : score = [("accuracy", MNum (1 # 3))]).
  { assert (Ok score = Ok [("accuracy", MNum (1 # 3))]) as [= ->];
      [rewrite <- Hscore; vm_compute; reflexivity | reflexivity]. }
  rewrite Es. reflexivity.
Defined.

(** ** More on the fold scaler *)

Section FoldSliceFacts.
Context {F : Type} `{Float64 F}.
Variable G : Globals.
Implicit Types (s : State F) (rs : list (list F)).

Lemma positional_in_range (n : nat) (i : Z) :
  in_range n i = true <-> is_Some (positional n i).
Proof.
  unfold in_range, positional.
  destruct ((0 <=? i)%Z && (i <? Z.of_nat n)%Z) eqn:E1.
  - apply andb_true_iff in E1 as [H1 H2]. split; [eauto |]. intros _.
    apply andb_true_iff. split; lia.
  - destruct ((- Z.of_nat n <=? i)%Z && (i <? 0)%Z) eqn:E2.
    + apply andb_true_iff in E2 as [H1 H2]. split; [eauto |]. intros _.
      apply andb_true_iff. split; lia.
    + split; [| intros [k Hk]; discriminate Hk]. intros Hr.
      apply andb_true_iff in Hr as [H1 H2].
      apply andb_false_iff in E1, E2. lia.
Qed.

Lemma row_at_in_range rs (i : Z) : in_range (length rs) i = true <-> is_Some (row_at rs i).
Proof.
  rewrite positional_in_range. unfold row_at.
  destruct (positional (length rs) i) as [k |] eqn:Ek.
  - split; [| eauto]. intros _. apply lookup_lt_is_Some. eapply positional_lt, Ek.
  - split; intros [x Hx]; discriminate Hx.
Qed.

Lemma take_rows_in_range rs (idx : list Z) :
  forallb (in_range (length rs)) idx = true <-> is_Some (take_rows rs idx).
Proof.
  induction idx as [| i idx IH]; cbn [forallb take_rows].
  - split; eauto.
  - rewrite andb_true_iff, IH, row_at_in_range.
    destruct (row_at rs i) as [r |], (take_rows rs idx) as [out |]; split;
      try (intros [[? ?] [? ?]]; discriminate); try (intros [? ?]; discriminate); eauto.
Qed.

(** A slice has one row per index, the row at that index. *)
Lemma take_rows_spec rs (idx : list Z) out :
  take_rows rs idx = Some out ->
  length out = length idx /\
  forall k i, idx !! k = Some i -> out !! k = row_at rs i.
Proof.
  revert out. induction idx as [| i idx IH]; intros out; cbn [take_rows].
  - intros [= <-]. split; [reflexivity |]. intros k i Hk. destruct k; discriminate Hk.
  - destruct (row_at rs i) as [r |] eqn:Er; [| discriminate].
    destruct (take_rows rs idx) as [out' |]; [| discriminate].
    intros [= <-]. destruct (IH out' eq_refl) as [Hl Hrow]. split; [cbn; lia |].
    intros [| k] j Hk; cbn in Hk |- *; [now injection Hk as <- | now apply Hrow].
Qed.

Lemma assign_length {A} (mask : list bool) (xs new : list A) :
  length (assign mask xs new) = length xs.
Proof.
  revert xs new. induction mask as [| b mask IH]; intros xs new.
  - now destruct xs.
  - destruct xs as [| x xs]; [now destruct b |].
    destruct b; [destruct new as [| v new] |]; cbn [assign length]; f_equal; apply IH.
Qed.

(** The assignment leaves the cells outside the mask as they are. *)
Lemma assign_unmasked {A} (mask : list bool) (xs new : list A) (j : nat) :
  mask !! j = Some false -> assign mask xs new !! j = xs !! j.
Proof.
  revert xs new j. induction mask as [| b mask IH]; intros xs new j Hj; [discriminate Hj |].
  destruct xs as [| x xs]; [now destruct b |].
  destruct j as [| j]; cbn in Hj.
  - injection Hj as ->. reflexivity.
  - destruct b; [destruct new |]; cbn; now apply IH.
Qed.

Lemma with_columns_spec (mask : list bool) (A : frame F) (vals : list (list F)) :
  fits mask A vals = true ->
  columns (with_columns mask A vals) = columns A /\
  length (rows (with_columns mask A vals)) = length (rows A) /\
  forall i j r r',
    mask !! j = Some false ->
    rows A !! i = Some r ->
    rows (with_columns mask A vals) !! i = Some r' ->
    r' !! j = r !! j /\ length r' = length r.
Proof.
  intros Hfits. unfold fits in Hfits. apply andb_true_iff in Hfits as [Hlen _].
  apply Nat.eqb_eq in Hlen. unfold with_columns. cbn [columns rows].
  split; [reflexivity |]. split; [rewrite length_zip_with; lia |].
  intros i j r r' Hj Hr Hr'.
  apply lookup_zip_with_Some in Hr' as (x & y & -> & Hx & Hy).
  rewrite Hr in Hx. injection Hx as <-.
  split; [now apply assign_unmasked | apply assign_length].
Qed.

Lemma fit_on_frame_fits to_scale gcols (A : frame F) scaler A' :
  fit_on_frame to_scale gcols A = Ok (scaler, A') ->
  exists gc va,
    gcols = Some gc /\ length (col_mask to_scale gc) = length (columns A) /\
    fits (col_mask to_scale gc) A va = true /\
    A' = with_columns (col_mask to_scale gc) A va.
Proof.
  unfold fit_on_frame. destruct gcols as [gc |]; [| discriminate]. cbv zeta.
  destruct (length _ =? length (columns A)) eqn:Hlen; [| discriminate]. cbn [negb].
  destruct (scaler_fit_transform _) as [[sc va] |]; [| discriminate]. cbn [obind fst snd].
  destruct (fits _ A va) eqn:Hfits; [| discriminate]. cbn [negb].
  intros [= <- <-]. exists gc, va. apply Nat.eqb_eq in Hlen. auto.
Qed.

Lemma transform_on_frame_fits to_scale gcols scaler (B B' : frame F) :
  transform_on_frame to_scale gcols scaler B = Ok B' ->
  exists gc vb,
    gcols = Some gc /\
    fits (col_mask to_scale gc) B vb = true /\
    B' = with_columns (col_mask to_scale gc) B vb.
Proof.
  unfold transform_on_frame. destruct gcols as [gc |]; [| discriminate]. cbv zeta.
  destruct (negb (length _ =? length (columns B))); [discriminate |].
  destruct (scaler_transform scaler _) as [vb |]; [| discriminate]. cbn [obind].
  destruct (fits _ B vb) eqn:Hfits; [| discriminate]. cbn [negb].
  intros [= <-]. exists gc, vb. auto.
Qed.

(** The scaler rejects a table without rows. *)
Lemma check_array_no_rows (A : frame F) : rows A = [] -> exists e, check_array A = Raise e.
Proof.
  intros Hr. unfold check_array. rewrite Hr. cbn. eauto.
Qed.

(** When the fit raises, so does the whole call, with the same error. *)
Lemma get_scaled_fit_raises self train_index test_index s T Y a b c d e :
  heap s !! self_X self = Some T ->
  heap s !! self_y self = Some Y ->
  global_ok G s = true ->
  take_rows (rows T) train_index = Some a ->
  take_rows (rows T) test_index = Some b ->
  take_rows (rows Y) train_index = Some c ->
  take_rows (rows Y) test_index = Some d ->
  fit_on_frame (self_cols_to_scale self) (global_columns G s) (Frame (columns T) a) = Raise e ->
  fst (get_scaled_train_and_test_sets G self train_index test_index s) = Raise e.
Proof.
  intros HX Hy Hok Ea Eb Ec Ed Efit.
  pose proof (observe_fit_eval G self train_index test_index s T Y HX Hy Hok) as Hobs.
  rewrite Ea, Eb, Ec, Ed, Efit in Hobs. unfold observe_fit in Hobs.
  unfold get_scaled_train_and_test_sets, bind at 1.
  destruct (fit_stage G self train_index test_index s) as [[[sc [[[x1 x2] x3] x4]] | e'] s1];
    cbn [fst snd] in Hobs |- *; [discriminate Hobs | now injection Hobs as ->].
Qed.

End FoldSliceFacts.

(** X12.  In the two feature tables a returning call hands back, the
    columns are those of [self.X], there is one row per index of the fold,
    and every cell of a column that is not to be scaled is the cell of the
    sliced row: only the designated columns are rewritten. *)
Theorem unscaled_columns_pass_through {F} `{Float64 F} (G : Globals) self
    train_index test_index (s s' : State F) (T Y : frame F) sl :
  heap s !! self_X self = Some T ->
  heap s !! self_y self = Some Y ->
  global_ok G s = true ->
  get_scaled_train_and_test_sets G self train_index test_index s = (Ok sl, s') ->
  exists gc a b A' B',
    global_columns G s = Some gc /\
    take_rows (rows T) train_index = Some a /\
    take_rows (rows T) test_index = Some b /\
    heap s' !! fst (fst (fst sl)) = Some A' /\
    heap s' !! snd (fst (fst sl)) = Some B' /\
    columns A' = columns T /\ columns B' = columns T /\
    length (rows A') = length train_index /\ length (rows B') = length test_index /\
    (forall i j r r',
       col_mask (self_cols_to_scale self) gc !! j = Some false ->
       a !! i = Some r -> rows A' !! i = Some r' ->
       r' !! j = r !! j /\ length r' = length r) /\
    (forall i j r r',
       col_mask (self_cols_to_scale self) gc !! j = Some false ->
       b !! i = Some r -> rows B' !! i = Some r' ->
       r' !! j = r !! j /\ length r' = length r).
Proof.
  intros HX Hy Hok E.
  destruct (get_scaled_ok G _ _ _ _ _ _ _ _ HX Hy Hok E)
    as (a & b & c & d & scaler & A' & B' & Ea & Eb & _ & _ & Efit & Etr & -> & Hheap).
  destruct (fit_on_frame_fits _ _ _ _ _ Efit) as (gc & va & Hgc & _ & Hfa & ->).
  destruct (transform_on_frame_fits _ _ _ _ _ Etr) as (gc' & vb & Hgc' & Hfb & ->).
  rewrite Hgc in Hgc'. injection Hgc' as <-.
  destruct (with_columns_spec _ _ _ Hfa) as (Hca & Hla & Hpa).
  destruct (with_columns_spec _ _ _ Hfb) as (Hcb & Hlb & Hpb).
  destruct (take_rows_spec _ _ _ Ea) as [Hna _].
  destruct (take_rows_spec _ _ _ Eb) as [Hnb _].
  exists gc, a, b, (with_columns (col_mask (self_cols_to_scale self) gc) (Frame (columns T) a) va),
    (with_columns (col_mask (self_cols_to_scale self) gc) (Frame (columns T) b) vb).
  cbn [fst snd columns rows] in *.
  split; [exact Hgc |]. split; [exact Ea |]. split; [exact Eb |].
  split. { rewrite Hheap. now apply list_lookup_middle. }
  split. { rewrite Hheap, lookup_app_r by lia.
           now replace (length (heap s) + 1 - length (heap s)) with 1 by lia. }
  split; [exact Hca |]. split; [exact Hcb |].
  split; [congruence |]. split; [congruence |]. split; [exact Hpa | exact Hpb].
Qed.

Lemma unscaled_columns_pass_through_witness :
  let self := Demo.pipeline "xgb" true [] ["col_0"] in
  let r := get_scaled_train_and_test_sets Demo.script self [0; 1]%Z [2; 3]%Z Demo.init in
  heap Demo.init !! self_X self = Some Demo.table /\
  heap Demo.init !! self_y self = Some Demo.labels /\
  global_ok Demo.script Demo.init = true /\
  r = (Ok (2, 3, 4, 5), snd r) /\
  exists gc a b A' B',
    global_columns Demo.script Demo.init = Some gc /\
    take_rows (rows Demo.table) [0; 1]%Z = Some a /\
    take_rows (rows Demo.table) [2; 3]%Z = Some b /\
    heap (snd r) !! 2 = Some A' /\
    heap (snd r) !! 3 = Some B' /\
    columns A' = columns Demo.table /\ columns B' = columns Demo.table /\
    length (rows A') = 2 /\ length (rows B') = 2 /\
    (forall i j r0 r',
       col_mask (self_cols_to_scale self) gc !! j = Some false ->
       a !! i = Some r0 -> rows A' !! i = Some r' ->
       r' !! j = r0 !! j /\ length r' = length r0) /\
    (forall i j r0 r',
       col_mask (self_cols_to_scale self) gc !! j = Some false ->
       b !! i = Some r0 -> rows B' !! i = Some r' ->
       r' !! j = r0 !! j /\ length r' = length r0).
Proof.
  intros self r.
  assert (Hr : r = (Ok (2, 3, 4, 5), snd r)) by reflexivity.
  do 3 (split; [reflexivity |]). split; [exact Hr |].
  exact (unscaled_columns_pass_through Demo.script self [0; 1]%Z [2; 3]%Z Demo.init (snd r)
           Demo.table Demo.labels (2, 3, 4, 5) eq_refl eq_refl eq_refl Hr).
Defined.

(** X13.  The two label tables a returning call hands back are slices of
    [self.y] and nothing else: the label columns, one row per index of the
    fold, the [k]-th row being the label row at the [k]-th index; no label
    is scaled. *)
Theorem label_slices_are_unscaled {F} `{Float64 F} (G : Globals) self
    train_index test_index (s s' : State F) (T Y : frame F) sl :
  heap s !! self_X self = Some T ->
  heap s !! self_y self = Some Y ->
  global_ok G s = true ->
  get_scaled_train_and_test_sets G self train_index test_index s = (Ok sl, s') ->
  exists c d,
    heap s' !! snd (fst sl) = Some (Frame (columns Y) c) /\
    heap s' !! snd sl = Some (Frame (columns Y) d) /\
    length c = length train_index /\ length d = length test_index /\
    (forall k i, train_index !! k = Some i -> c !! k = row_at (rows Y) i) /\
    (forall k i, test_index !! k = Some i -> d !! k = row_at (rows Y) i).
Proof.
  intros HX Hy Hok E.
  destruct (get_scaled_ok G _ _ _ _ _ _ _ _ HX Hy Hok E)
    as (a & b & c & d & scaler & A' & B' & _ & _ & Ec & Ed & _ & _ & -> & Hheap).
  destruct (take_rows_spec _ _ _ Ec) as [Hlc Hrc].
  destruct (take_rows_spec _ _ _ Ed) as [Hld Hrd].
  exists c, d. cbn [fst snd]. rewrite Hheap.
  split. { rewrite lookup_app_r by lia.
           now replace (length (heap s) + 2 - length (heap s)) with 2 by lia. }
  split. { rewrite lookup_app_r by lia.
           now replace (length (heap s) + 3 - length (heap s)) with 3 by lia. }
  auto.
Qed.

Lemma label_slices_are_unscaled_witness :
  let self := Demo.pipeline "xgb" true [] ["col_0"] in
  let r := get_scaled_train_and_test_sets Demo.script self [3; -4]%Z [1]%Z Demo.init in
  heap Demo.init !! self_X self = Some Demo.table /\
  heap Demo.init !! self_y self = Some Demo.labels /\
  global_ok Demo.script Demo.init = true /\
  r = (Ok (2, 3, 4, 5), snd r) /\
  exists c d,
    heap (snd r) !! 4 = Some (Frame (columns Demo.labels) c) /\
    heap (snd r) !! 5 = Some (Frame (columns Demo.labels) d) /\
    length c = 2 /\ length d = 1 /\
    (forall k i, [3; -4]%Z !! k = Some i -> c !! k = row_at (rows Demo.labels) i) /\
    (forall k i, [1]%Z !! k = Some i -> d !! k = row_at (rows Demo.labels) i).
Proof.
  intros self r.
  assert (Hr : r = (Ok (2, 3, 4, 5), snd r)) by reflexivity.
  do 3 (split; [reflexivity |]). split; [exact Hr |].
  exact (label_slices_are_unscaled Demo.script self [3; -4]%Z [1]%Z Demo.init (snd r)
           Demo.table Demo.labels (2, 3, 4, 5) eq_refl eq_refl eq_refl Hr).
Defined.

(** X14.  A training index outside the rows of [self.X] (at or beyond their
    number, or below its negative) makes the call raise [IndexError] at the
    first slice: nothing was allocated or written, the state is the one
    before the call. *)
Theorem fold_index_out_of_range {F} `{Float64 F} (G : Globals) self
    train_index test_index (s : State F) (T : frame F) :
  heap s !! self_X self = Some T ->
  forallb (in_range (length (rows T))) train_index = false ->
  get_scaled_train_and_test_sets G self train_index test_index s
  = (Raise (IndexError "positional indexers are out-of-bounds"), s).
Proof.
  intros HX Hrange.
  assert (Hnone : take_rows (rows T) train_index = None).
  { destruct (take_rows (rows T) train_index) as [out |] eqn:E; [| reflexivity].
    assert (Hs : is_Some (take_rows (rows T) train_index)) by (rewrite E; eauto).
    apply take_rows_in_range in Hs. congruence. }
  unfold get_scaled_train_and_test_sets, fit_stage, slice_fold.
  unfold bind at 1. unfold bind at 1. unfold bind at 1.
  rewrite (iloc_rows_eval s _ T _ HX), Hnone. reflexivity.
Qed.

Lemma fold_index_out_of_range_witness :
  let self := Demo.pipeline "xgb" true [] ["col_0"] in
  heap Demo.init !! self_X self = Some Demo.table /\
  forallb (in_range (length (rows Demo.table))) [0; 4]%Z = false /\
  get_scaled_train_and_test_sets Demo.script self [0; 4]%Z [1]%Z Demo.init
  = (Raise (IndexError "positional indexers are out-of-bounds"), Demo.init).
Proof.
  intros self. split; [reflexivity |]. split; [reflexivity |].
  apply (fold_index_out_of_range Demo.script self [0; 4]%Z [1]%Z Demo.init Demo.table);
    reflexivity.
Defined.

Section MaskFacts.
Context {F : Type} `{Float64 F}.
Variable G : Globals.

Lemma slices_exist (T Y : frame F) (train_index test_index : list Z) :
  length (rows Y) = length (rows T) ->
  forallb (in_range (length (rows T))) train_index = true ->
  forallb (in_range (length (rows T))) test_index = true ->
  exists a b c d,
    take_rows (rows T) train_index = Some a /\ take_rows (rows T) test_index = Some b /\
    take_rows (rows Y) train_index = Some c /\ take_rows (rows Y) test_index = Some d.
Proof.
  intros Hlen Htr Hte.
  destruct (proj1 (take_rows_in_range (rows T) train_index) Htr) as [a Ea].
  destruct (proj1 (take_rows_in_range (rows T) test_index) Hte) as [b Eb].
  rewrite <- Hlen in Htr, Hte.
  destruct (proj1 (take_rows_in_range (rows Y) train_index) Htr) as [c Ec].
  destruct (proj1 (take_rows_in_range (rows Y) test_index) Hte) as [d Ed].
  exists a, b, c, d. auto.
Qed.

End MaskFacts.

(** X15.  In a module that imports the class the name [X] of line 125 is
    unbound: with tables that have a label row per feature row and a fold
    whose indices are in range, the call raises [NameError] whatever the
    columns to scale are, so no fold is ever scaled there. *)
Theorem fold_scaler_needs_module_level_X {F} `{Float64 F} (G : Globals) self
    train_index test_index (s : State F) (T Y : frame F) :
  global_X G = None ->
  heap s !! self_X self = Some T ->
  heap s !! self_y self = Some Y ->
  length (rows Y) = length (rows T) ->
  forallb (in_range (length (rows T))) train_index = true ->
  forallb (in_range (length (rows T))) test_index = true ->
  fst (get_scaled_train_and_test_sets G self train_index test_index s) = Raise (NameError "X").
Proof.
  intros HG HX Hy Hlen Htr Hte.
  destruct (slices_exist T Y train_index test_index Hlen Htr Hte)
    as (a & b & c & d & Ea & Eb & Ec & Ed).
  assert (Hok : global_ok G s = true) by (unfold global_ok; now rewrite HG).
  apply (get_scaled_fit_raises G self train_index test_index s T Y a b c d); auto.
  unfold global_columns. now rewrite HG.
Qed.

Lemma fold_scaler_needs_module_level_X_witness :
  let self := Demo.pipeline "xgb" true [] ["col_0"; "col_1"] in
  global_X Demo.imported = None /\
  heap Demo.init !! self_X self = Some Demo.table /\
  heap Demo.init !! self_y self = Some Demo.labels /\
  length (rows Demo.labels) = length (rows Demo.table) /\
  forallb (in_range (length (rows Demo.table))) [0; 1]%Z = true /\
  forallb (in_range (length (rows Demo.table))) [2; 3]%Z = true /\
  fst (get_scaled_train_and_test_sets Demo.imported self [0; 1]%Z [2; 3]%Z Demo.init)
  = Raise (NameError "X").
Proof.
  intros self. do 6 (split; [reflexivity |]).
  apply (fold_scaler_needs_module_level_X Demo.imported self [0; 1]%Z [2; 3]%Z Demo.init
           Demo.table Demo.labels); reflexivity.
Defined.

(** X16.  The mask is as long as the columns of the module-level [X], not
    of [self.X]: when the two tables differ in their number of columns, the
    call raises the [IndexError] of a Boolean index of the wrong length. *)
Theorem fold_scaler_mask_of_other_table {F} `{Float64 F} (G : Globals) self
    train_index test_index (s : State F) (T Y : frame F) gc :
  global_ok G s = true ->
  global_columns G s = Some gc ->
  length gc <> length (columns T) ->
  heap s !! self_X self = Some T ->
  heap s !! self_y self = Some Y ->
  length (rows Y) = length (rows T) ->
  forallb (in_range (length (rows T))) train_index = true ->
  forallb (in_range (length (rows T))) test_index = true ->
  fst (get_scaled_train_and_test_sets G self train_index test_index s)
  = Raise (IndexError "Boolean index has wrong length").
Proof.
  intros Hok Hgc Hne HX Hy Hlen Htr Hte.
  destruct (slices_exist T Y train_index test_index Hlen Htr Hte)
    as (a & b & c & d & Ea & Eb & Ec & Ed).
  apply (get_scaled_fit_raises G self train_index test_index s T Y a b c d); auto.
  rewrite Hgc. unfold fit_on_frame, col_mask. cbv zeta. rewrite length_map. cbn [columns].
  apply Nat.eqb_neq in Hne. now rewrite Hne.
Qed.

Lemma fold_scaler_mask_of_other_table_witness :
  let self := Demo.pipeline "xgb" true [] ["col_0"; "col_1"] in
  global_ok Demo2.script_other Demo2.init_other = true /\
  global_columns Demo2.script_other Demo2.init_other = Some ["a"; "b"; "c"] /\
  length ["a"; "b"; "c"] <> length (columns Demo.table) /\
  heap Demo2.init_other !! self_X self = Some Demo.table /\
  heap Demo2.init_other !! self_y self = Some Demo.labels /\
  length (rows Demo.labels) = length (rows Demo.table) /\
  forallb (in_range (length (rows Demo.table))) [0; 1]%Z = true /\
  forallb (in_range (length (rows Demo.table))) [2; 3]%Z = true /\
  fst (get_scaled_train_and_test_sets Demo2.script_other self [0; 1]%Z [2; 3]%Z
         Demo2.init_other)
  = Raise (IndexError "Boolean index has wrong length").
Proof.
  intros self.
  assert (Hne : length ["a"; "b"; "c"] <> length (columns Demo.table)) by (cbn; lia).
  do 2 (split; [reflexivity |]). split; [exact Hne |]. do 5 (split; [reflexivity |]).
  apply (fold_scaler_mask_of_other_table Demo2.script_other self [0; 1]%Z [2; 3]%Z
           Demo2.init_other Demo.table Demo.labels ["a"; "b"; "c"]);
    try reflexivity. exact Hne.
Defined.

(** X17.  A fold with an empty training index or an empty test index never
    comes back scaled: the scaler refuses a table without rows, so the call
    raises. *)
Theorem fold_scaler_rejects_empty_fold {F} `{Float64 F} (G : Globals) self
    train_index test_index (s : State F) (T Y : frame F) :
  heap s !! self_X self = Some T ->
  heap s !! self_y self = Some Y ->
  global_ok G s = true ->
  train_index = [] \/ test_index = [] ->
  exists e, fst (get_scaled_train_and_test_sets G self train_index test_index s) = Raise e.
Proof.
  intros HX Hy Hok Hempty.
  destruct (get_scaled_train_and_test_sets G self train_index test_index s)
    as [[sl | e] s'] eqn:E; [exfalso | cbn; eauto].
  destruct (get_scaled_ok G _ _ _ _ _ _ _ _ HX Hy Hok E)
    as (a & b & c & d & scaler & A' & B' & Ea & Eb & _ & _ & Efit & Etr & _).
  destruct (fit_on_frame_ok _ _ _ _ _ Efit) as (gc & va & Hgc & Hsc & Hva & _).
  destruct (transform_on_frame_ok _ _ _ _ _ Etr) as (gc' & vb & _ & Hvb & _).
  destruct Hempty as [-> | ->].
  - cbn in Ea. injection Ea as <-.
    destruct (check_array_no_rows
                (columns_where (col_mask (self_cols_to_scale self) gc) (Frame (columns T) [])))
      as [e He]; [reflexivity |].
    unfold scaler_fit in Hsc. rewrite He in Hsc. discriminate Hsc.
  - cbn in Eb. injection Eb as <-.
    destruct (check_array_no_rows
                (columns_where (col_mask (self_cols_to_scale self) gc') (Frame (columns T) [])))
      as [e He]; [reflexivity |].
    unfold scaler_transform in Hvb. rewrite He in Hvb. discriminate Hvb.
Qed.

Lemma fold_scaler_rejects_empty_fold_witness :
  let self := Demo.pipeline "xgb" true [] ["col_0"; "col_1"] in
  heap Demo.init !! self_X self = Some Demo.table /\
  heap Demo.init !! self_y self = Some Demo.labels /\
  global_ok Demo.script Demo.init = true /\
  ([0; 1; 2; 3]%Z = [] \/ @nil Z = []) /\
  exists e,
    fst (get_scaled_train_and_test_sets Demo.script self [0; 1; 2; 3]%Z [] Demo.init) = Raise e.
Proof.
  intros self. do 3 (split; [reflexivity |]).
  assert (Hempty : [0; 1; 2; 3]%Z = [] \/ @nil Z = []) by (right; reflexivity).
  split; [exact Hempty |].
  exact (fold_scaler_rejects_empty_fold Demo.script self [0; 1; 2; 3]%Z [] Demo.init
           Demo.table Demo.labels eq_refl eq_refl eq_refl Hempty).
Defined.

(** ** The configurations of a grid run *)

Lemma combination_keys (items cfg : dict) : combination items cfg -> keys cfg = keys items.
Proof.
  unfold keys. induction 1 as [| kv cv items cfg [Hk _] _ IH]; cbn [map];
    [reflexivity | now rewrite Hk, IH].
Qed.

(** X18.  Every configuration a grid search appends to the recorded params,
    whether the run returns or raises, assigns a value to each key of the
    parameter space and to no other key: its keys are those of the space in
    sorted order. *)
Theorem grid_configurations_have_every_key {F} `{Float64 F} (W : World F) (G : Globals)
    self n_splits (s : State F) :
  let r := optimize_hypers_using_grid_search W G self n_splits s in
  exists cfgs,
    self_params (snd r) = self_params s ++ cfgs /\
    Forall (fun cfg => keys cfg = keys (sorted (self_param_space self))) cfgs /\
    Permutation (keys (sorted (self_param_space self))) (keys (self_param_space self)).
Proof.
  cbv zeta.
  assert (Hperm : Permutation (keys (sorted (self_param_space self)))
                              (keys (self_param_space self))).
  { unfold keys. apply Permutation_map. symmetry. apply sorted_perm. }
  unfold optimize_hypers_using_grid_search, bind at 1, lift, ParameterGrid.
  destruct (omapM _ (self_param_space self)) as [cs | e]; cbn [obind].
  - destruct (grid_loop_log W G 0 [] self n_splits (rng_pos s)
                (ParameterGrid_iter (self_param_space self)) _ _ s (Inv_trivial s))
      as (k & new & _ & (_ & _ & Hp & _) & _).
    exists (take k (ParameterGrid_iter (self_param_space self))).
    split; [exact Hp |]. split; [| exact Hperm].
    apply List.Forall_forall. intros cfg Hin.
    apply combination_keys, in_ParameterGrid_iter.
    apply list_elem_of_In. eapply subseteq_take. apply list_elem_of_In, Hin.
  - exists []. cbn. rewrite app_nil_r. split; [reflexivity |]. split; [constructor | exact Hperm].
Qed.

(** * The Lasso wrapper *)

(** X19.  A wrapper that was just constructed has no model and cannot
    predict: [predict] raises [AttributeError].  When [get_fitted_model]
    returns, the model is the one the registry gave and both prediction
    methods answer with that model's answers, leaving the wrapper as it is;
    when the registry raises, the error is passed on and the wrapper still
    has no model. *)
Theorem lasso_predicts_with_loaded_model {F} (L : LassoWorld F) (fs : list (frame F))
    model_name version (X : frame F) :
  let s0 := lasso_init L fs in
  predict L X s0 = (Raise (AttributeError "'NoneType' object has no attribute 'predict'"), s0) /\
  match get_fitted_model L model_name version s0 with
  | (Ok _, s1) =>
      exists m,
        load_model L model_name version = Ok m /\
        lasso_model s1 = Some m /\ frames s1 = fs /\
        predict L X s1 = (model_predict L m X, s1) /\
        predict_proba L X s1 = (model_predict_proba L m X, s1)
  | (Raise e, s1) =>
      load_model L model_name version = Raise e /\ s1 = s0
  end.
Proof.
  cbv zeta. split; [reflexivity |]. unfold get_fitted_model.
  destruct (load_model L model_name version) as [m | e]; [| auto].
  exists m. repeat split.
Qed.

Section LassoFacts.
Context {F : Type}.
Variable L : LassoWorld F.

Lemma filter_complete_idempotent (rs : list (list F)) :
  List.filter (complete_row L) (List.filter (complete_row L) rs)
  = List.filter (complete_row L) rs.
Proof.
  induction rs as [| r rs IH]; cbn [List.filter]; [reflexivity |].
  destruct (complete_row L r) eqn:Er; cbn [List.filter]; [rewrite Er; now f_equal | exact IH].
Qed.

End LassoFacts.

(** X20.  [fit_model] changes the caller's table: whatever happens
    afterwards (a missing target column, a failing split, a failing fit or
    success) the dataset object holds, after the call, exactly its rows
    without missing values, in their order and under the same columns; the
    other objects are untouched, and dropping again changes nothing. *)
Theorem fit_model_drops_rows_in_place {F} (L : LassoWorld F) dataset cwb verbose max_iter
    target (s : LassoState F (Model L)) (f : frame F) :
  frames s !! dataset = Some f ->
  let s' := snd (fit_model L dataset cwb verbose max_iter target s) in
  frames s' !! dataset = Some (Frame (columns f) (List.filter (complete_row L) (rows f))) /\
  Forall (fun r => Forall (fun x => is_na L x = false) r)
         (List.filter (complete_row L) (rows f)) /\
  dropna L (dropna L f) = dropna L f /\
  forall l, l <> dataset -> frames s' !! l = frames s !! l.
Proof.
  intros Hf. cbv zeta.
  assert (Hs : frames (snd (fit_model L dataset cwb verbose max_iter target s))
               = <[dataset := dropna L f]> (frames s)).
  { unfold fit_model. rewrite Hf.
    destruct (drop_column target (dropna L f)); [| reflexivity].
    destruct (only_column target (dropna L f)); [| reflexivity].
    destruct (train_test_split L _ _) as [[[[X_train X_test] y_train] y_test] |];
      [| reflexivity].
    destruct (lr_fit L _ _ _); reflexivity. }
  rewrite Hs. split.
  { apply list_lookup_insert_eq. eapply lookup_lt_Some, Hf. }
  split.
  { apply List.Forall_forall. intros r Hr. apply filter_In in Hr as [_ Hr].
    unfold complete_row in Hr. apply List.Forall_forall. intros x Hx.
    rewrite forallb_forall in Hr. specialize (Hr x Hx). now apply negb_true_iff in Hr. }
  split.
  { unfold dropna. cbn [columns rows]. now rewrite filter_complete_idempotent. }
  intros l Hl. now apply list_lookup_insert_ne.
Qed.

Lemma fit_model_drops_rows_in_place_witness :
  let s' := snd (fit_model Demo2.lasso_world 0 "balanced" 2 333 "UPGRADED_FLAG"
                   Demo2.lasso_start) in
  frames Demo2.lasso_start !! 0 = Some Demo2.bookings /\
  frames s' !! 0 = Some (Frame ["PRICE"; "UPGRADED_FLAG"] [[10; 1]; [30; 0]]%Q).
Proof.
  intros s'. split; [reflexivity |].
  exact (proj1 (fit_model_drops_rows_in_place Demo2.lasso_world 0 "balanced" 2 333
                  "UPGRADED_FLAG" Demo2.lasso_start Demo2.bookings eq_refl)).
Defined.

(** X21.  [fit_model] assigns [self.model] last.  When it returns, the model
    is the [LogisticRegression] (l1 penalty, saga solver) fitted on the
    training part of the split of the complete rows, features being all
    columns but the target and labels the target column; when it raises,
    at whatever step, [self.model] is what it was before the call. *)
Theorem fit_model_assigns_model_last {F} (L : LassoWorld F) dataset cwb verbose max_iter
    target (s : LassoState F (Model L)) (f : frame F) :
  frames s !! dataset = Some f ->
  match fit_model L dataset cwb verbose max_iter target s with
  | (Ok _, s') =>
      exists features labels X_train X_test y_train y_test m,
        drop_column target (dropna L f) = Ok features /\
        only_column target (dropna L f) = Ok labels /\
        train_test_split L features labels = Ok (X_train, X_test, y_train, y_test) /\
        lr_fit L [("penalty", VStr "l1"); ("solver", VStr "saga"); ("class_weight", VStr cwb);
                  ("verbose", VInt verbose); ("max_iter", VInt max_iter)] X_train y_train
        = Ok m /\
        lasso_model s' = Some m
  | (Raise e, s') => lasso_model s' = lasso_model s
  end.
Proof.
  intros Hf. unfold fit_model. rewrite Hf.
  destruct (drop_column target (dropna L f)) as [features |] eqn:E1; [| reflexivity].
  destruct (only_column target (dropna L f)) as [labels |] eqn:E2; [| reflexivity].
  destruct (train_test_split L features labels)
    as [[[[X_train X_test] y_train] y_test] |] eqn:E3; [| reflexivity].
  destruct (lr_fit L _ X_train y_train) as [m |] eqn:E4; [| reflexivity].
  exists features, labels, X_train, X_test, y_train, y_test, m. auto.
Qed.

Lemma fit_model_assigns_model_last_witness :
  frames Demo2.lasso_start !! 0 = Some Demo2.bookings /\
  match fit_model Demo2.lasso_world 0 "balanced" 2 333 "UPGRADED_FLAG" Demo2.lasso_start with
  | (Ok _, s') =>
      exists features labels X_train X_test y_train y_test m,
        drop_column "UPGRADED_FLAG" (dropna Demo2.lasso_world Demo2.bookings) = Ok features /\
        only_column "UPGRADED_FLAG" (dropna Demo2.lasso_world Demo2.bookings) = Ok labels /\
        train_test_split Demo2.lasso_world features labels
        = Ok (X_train, X_test, y_train, y_test) /\
        lr_fit Demo2.lasso_world
               [("penalty", VStr "l1"); ("solver", VStr "saga");
                ("class_weight", VStr "balanced"); ("verbose", VInt 2);
                ("max_iter", VInt 333)] X_train y_train
        = Ok m /\
        lasso_model s' = Some m
  | (Raise e, s') => lasso_model s' = lasso_model Demo2.lasso_start
  end.
Proof.
  split; [reflexivity |].
  exact (fit_model_assigns_model_last Demo2.lasso_world 0 "balanced" 2 333
           "UPGRADED_FLAG" Demo2.lasso_start Demo2.bookings eq_refl).
Defined.

(** On the example table the fit returns and the model is the one fitted on
    the feature column. *)
Example fit_model_example :
  fit_model Demo2.lasso_world 0 "balanced" 2 333 "UPGRADED_FLAG" Demo2.lasso_start
  = (Ok tt, {| frames := [Frame ["PRICE"; "UPGRADED_FLAG"] [[10; 1]; [30; 0]]%Q];
               lasso_model := Some ["PRICE"] |}).
Proof. reflexivity. Qed.

(** X22.  A target that is not a column of the dataset makes [fit_model]
    raise [KeyError] for that label before anything is split or fitted:
    [self.model] is unchanged, while the rows with missing values are
    already gone from the dataset. *)
Theorem fit_model_missing_target {F} (L : LassoWorld F) dataset cwb verbose max_iter
    target (s : LassoState F (Model L)) (f : frame F) :
  frames s !! dataset = Some f ->
  existsb (String.eqb target) (columns f) = false ->
  fit_model L dataset cwb verbose max_iter target s
  = (Raise (KeyError target),
     {| frames := <[dataset := dropna L f]> (frames s); lasso_model := lasso_model s |}).
Proof.
  intros Hf Hcol. unfold fit_model, drop_column. rewrite Hf. cbn [dropna columns].
  now rewrite Hcol.
Qed.

Lemma fit_model_missing_target_witness :
  frames Demo2.lasso_start !! 0 = Some Demo2.bookings /\
  existsb (String.eqb "upgraded") (columns Demo2.bookings) = false /\
  fit_model Demo2.lasso_world 0 "balanced" 2 333 "upgraded" Demo2.lasso_start
  = (Raise (KeyError "upgraded"),
     {| frames := <[0 := dropna Demo2.lasso_world Demo2.bookings]> (frames Demo2.lasso_start);
        lasso_model := lasso_model Demo2.lasso_start |}).
Proof.
  split; [reflexivity |]. split; [reflexivity |].
  apply (fit_model_missing_target Demo2.lasso_world 0 "balanced" 2 333 "upgraded"
           Demo2.lasso_start Demo2.bookings); reflexivity.
Defined.
